(** * Farjad ERP backend: derived fields, number generation and validation

    A shallow embedding of the model methods of the Django applications
    [finance], [inventory], [services] and [core]:

    - [Invoice.remaining_amount], [Invoice.is_overdue], [Invoice.save],
      [InvoiceItem.save], [Payment.save]            (finance/models.py)
    - [Product.profit_margin], [Product.current_stock],
      [Product.is_low_stock], [Product.is_out_of_stock],
      [ProductImage.clean]                          (inventory/models.py)
    - [ServiceRequest.save], [Schedule.clean]       (services/models.py)
    - [Address.clean]                               (core/models.py)

    Amounts are Python [Decimal] values (a coefficient and an exponent, with
    the default context of 28 significant digits and half-even rounding),
    tables are finite maps from primary keys to rows, and the methods that
    query or write the database run in a state-and-exception monad over the
    store.  Where a method computes a decimal that it then saves, the write
    adapts the value to its column ([DecimalField.get_db_prep_save]). *)

From Stdlib Require Import ZArith QArith Qpower Qfield Lia Lqa String Ascii List.
From stdpp Require Import gmap.

Local Open Scope Z_scope.

(** ** Python's [decimal.Decimal] under the default context *)

Module Decimal.

(** A finite decimal: [coef * 10 ^ exp].  Signed zeros, NaN and the
    infinities never reach a [DecimalField]; the exponent limits of the
    context ([Emax = 999999]) are out of reach of the operations below on
    field values and are left out. *)
Record t : Type := mk { coef : Z; exp : Z }.

(** [getcontext().prec] *)
Definition prec : Z := 28.

(** [len(self._int)]: the number of decimal digits of a coefficient. *)
Fixpoint ndigits_fuel (fuel : nat) (n : Z) : Z :=
  match fuel with
  | O => 1
  | S f => if n <? 10 then 1 else 1 + ndigits_fuel f (n / 10)
  end.

Definition ndigits (n : Z) : Z :=
  ndigits_fuel (Z.to_nat (Z.log2 (Z.abs n))) (Z.abs n).

(** [Decimal._fix]: a coefficient longer than the precision is rounded to
    [prec] digits, half to even; a carry out of the top digit drops the
    last digit and raises the exponent once more. *)
Definition fix_ (d : t) : t :=
  let n := ndigits (coef d) in
  if n <=? prec then d
  else
    let k := n - prec in
    let q := Z.abs (coef d) / 10 ^ k in
    let r := Z.abs (coef d) mod 10 ^ k in
    let up := (10 ^ k <? 2 * r) || ((2 * r =? 10 ^ k) && Z.odd q) in
    let c := if up then q + 1 else q in
    if c =? 10 ^ prec
    then mk (Z.sgn (coef d) * (c / 10)) (exp d + k + 1)
    else mk (Z.sgn (coef d) * c) (exp d + k).

(** [Decimal(n)] for a Python [int], as in [x * 100] and [x / 100]. *)
Definition of_int (n : Z) : t := mk n 0.

(** [bool(d)] is false exactly for zero. *)
Definition is_zero (d : t) : bool := coef d =? 0.

(** [d > 0] against the [int] zero. *)
Definition gt0 (d : t) : bool := 0 <? coef d.

Definition neg (d : t) : t := mk (- coef d) (exp d).

(** [Decimal.__mul__] *)
Definition mul (a b : t) : t :=
  fix_ (mk (coef a * coef b) (exp a + exp b)).

(** [Decimal._rescale] to an exponent not above the current one: the
    coefficient is padded with zeros. *)
Definition rescale (e : Z) (d : t) : t :=
  mk (coef d * 10 ^ (exp d - e)) e.

(** [Decimal.__add__]: the exact sum at the smaller exponent, then
    [_fix]; a zero operand only rescales the other one. *)
Definition add (a b : t) : t :=
  let e := Z.min (exp a) (exp b) in
  if is_zero a && is_zero b then fix_ (mk 0 e)
  else if is_zero a then fix_ (rescale (Z.max e (exp b - prec - 1)) b)
  else if is_zero b then fix_ (rescale (Z.max e (exp a - prec - 1)) a)
  else fix_ (mk (coef a * 10 ^ (exp a - e) + coef b * 10 ^ (exp b - e)) e).

(** [Decimal.__sub__] *)
Definition sub (a b : t) : t := add a (neg b).

(** The loop of [__truediv__] on an exact quotient: trailing zeros are
    dropped while the exponent is below the ideal one. *)
Fixpoint strip (fuel : nat) (c e : Z) : Z * Z :=
  match fuel with
  | O => (c, e)
  | S f => if c mod 10 =? 0 then strip f (c / 10) (e + 1) else (c, e)
  end.

(** [Decimal.__truediv__]: [None] stands for the trapped signals
    [DivisionByZero] and [InvalidOperation] (0 / 0) of a zero divisor. *)
Definition div (a b : t) : option t :=
  if is_zero b then None
  else if is_zero a then Some (fix_ (mk 0 (exp a - exp b)))
  else
    let shift := ndigits (coef b) - ndigits (coef a) + prec + 1 in
    let e := exp a - exp b - shift in
    let n := Z.abs (coef a) in
    let m := Z.abs (coef b) in
    let '(q, r) :=
      if 0 <=? shift then Z.div_eucl (n * 10 ^ shift) m
      else Z.div_eucl n (m * 10 ^ (- shift)) in
    let '(q', e') :=
      if r =? 0 then strip (Z.to_nat (exp a - exp b - e)) q e
      else (if q mod 5 =? 0 then q + 1 else q, e) in
    Some (fix_ (mk (Z.sgn (coef a) * Z.sgn (coef b) * q') e')).

(** [Decimal.quantize] to the exponent [e] in a context of precision [p]
    with half-even rounding: zero takes the exponent; an operand whose
    leading digit lies more than [p] places above [e] is refused; otherwise
    the coefficient is padded with zeros or rounded ([_rescale]), and a
    result of more than [p] digits is refused.  [None] stands for the
    trapped signal [InvalidOperation]. *)
Definition quantize (p e : Z) (d : t) : option t :=
  if is_zero d then Some (mk 0 e)
  else if p <? exp d + ndigits (coef d) - e then None
  else
    let c :=
      if e <=? exp d then Z.abs (coef d) * 10 ^ (exp d - e)
      else
        let k := e - exp d in
        let q := Z.abs (coef d) / 10 ^ k in
        let r := Z.abs (coef d) mod 10 ^ k in
        let up := (10 ^ k <? 2 * r) || ((2 * r =? 10 ^ k) && Z.odd q) in
        if up then q + 1 else q in
    if p <? ndigits c then None else Some (mk (Z.sgn (coef d) * c) e).

(** The exact sum the database computes for [SUM(column)]: no context,
    no rounding. *)
Definition add_exact (a b : t) : t :=
  let e := Z.min (exp a) (exp b) in
  mk (coef a * 10 ^ (exp a - e) + coef b * 10 ^ (exp b - e)) e.

(** The rational number a decimal denotes. *)
Definition value (d : t) : Q := (inject_Z (coef d) * (10 # 1) ^ exp d)%Q.

(** A value a [DecimalField(max_digits=md, decimal_places=dp)] accepts:
    at most [dp] decimal places and at most [md] digits when written
    with [dp] places. *)
Definition fits (md dp : Z) (d : t) : Prop :=
  - dp <= exp d <= md - dp /\ Z.abs (coef d) * 10 ^ (exp d + dp) < 10 ^ md.

End Decimal.


(** ** Dates and times ([datetime.date], [datetime.datetime]) *)

(** Python compares dates and datetimes as the tuples of their fields. *)
Fixpoint tuple_cmp (a b : list Z) : comparison :=
  match a, b with
  | [], [] => Eq
  | [], _ :: _ => Lt
  | _ :: _, [] => Gt
  | x :: a', y :: b' =>
      match x ?= y with
      | Eq => tuple_cmp a' b'
      | c => c
      end
  end.

Module Date.
Record t : Type := mk { year : Z; month : Z; day : Z }.

Definition fields (d : t) : list Z := [year d; month d; day d].

(** [a > b] *)
Definition gtb (a b : t) : bool :=
  match tuple_cmp (fields a) (fields b) with Gt => true | _ => false end.

(** [a] is strictly after [b]: a later year, or the same year and a
    later month, or the same month and a later day. *)
Definition after (a b : t) : Prop :=
  year b < year a
  \/ (year a = year b /\ month b < month a)
  \/ (year a = year b /\ month a = month b /\ day b < day a).
End Date.

Module DateTime.
Record t : Type := mk {
  year : Z; month : Z; day : Z;
  hour : Z; minute : Z; second : Z; microsecond : Z
}.

Definition fields (d : t) : list Z :=
  [year d; month d; day d; hour d; minute d; second d; microsecond d].

(** [d.date()] *)
Definition date (d : t) : Date.t := Date.mk (year d) (month d) (day d).

(** [a >= b] *)
Definition geb (a b : t) : bool :=
  match tuple_cmp (fields a) (fields b) with Lt => false | _ => true end.

(** [a < b] *)
Definition ltb (a b : t) : bool :=
  match tuple_cmp (fields a) (fields b) with Lt => true | _ => false end.

(** The invariants of a [datetime] object. *)
Definition valid (d : t) : Prop :=
  1 <= year d <= 9999 /\ 1 <= month d <= 12 /\ 1 <= day d <= 31
  /\ 0 <= hour d < 24 /\ 0 <= minute d < 60 /\ 0 <= second d < 60
  /\ 0 <= microsecond d < 1000000.

Definition digit (n : Z) : ascii := ascii_of_nat (48 + Z.to_nat (n mod 10)).

(** [%m], [%d], [%H], [%M], [%S]: two digits, zero padded. *)
Definition pad2 (n : Z) : string :=
  String (digit (n / 10)) (String (digit n) EmptyString).

(** [%Y]: the year as a decimal number (the C library does not pad). *)
Fixpoint decimal_fuel (fuel : nat) (n : Z) (acc : string) : string :=
  match fuel with
  | O => acc
  | S f =>
      let acc' := String (digit n) acc in
      if n <? 10 then acc' else decimal_fuel f (n / 10) acc'
  end.

Definition decimal (n : Z) : string := decimal_fuel (Z.to_nat n) n EmptyString.

(** [d.strftime('%Y%m%d%H%M%S')] *)
Definition strftime (d : t) : string :=
  (decimal (year d) ++ pad2 (month d) ++ pad2 (day d)
   ++ pad2 (hour d) ++ pad2 (minute d) ++ pad2 (second d))%string.
End DateTime.

(** ** Model rows

    Each record keeps the primary key and the fields the methods below
    read or write; a foreign key holds the primary key of the row it
    references. *)

(** finance.Invoice *)
Record Invoice : Type := mkInvoice {
  Invoice_pk : option Z;
  invoice_number : string;          (* CharField(max_length=50, unique=True) *)
  Invoice_status : string;          (* choices: draft, sent, paid, overdue, cancelled *)
  due_date : Date.t;
  total_amount : Decimal.t          (* DecimalField(max_digits=12, decimal_places=2) *)
}.

(** finance.InvoiceItem *)
Record InvoiceItem : Type := mkInvoiceItem {
  InvoiceItem_pk : option Z;
  InvoiceItem_invoice : Z;
  quantity : Decimal.t;             (* DecimalField(max_digits=10, decimal_places=2) *)
  unit_price : Decimal.t;           (* DecimalField(max_digits=10, decimal_places=2) *)
  discount_percentage : Decimal.t;  (* DecimalField(max_digits=5, decimal_places=2) *)
  line_total : Decimal.t            (* DecimalField(max_digits=12, decimal_places=2) *)
}.

(** finance.Payment *)
Record Payment : Type := mkPayment {
  Payment_pk : option Z;
  payment_number : string;          (* CharField(max_length=50, unique=True) *)
  Payment_invoice : Z;              (* related_name='payments' *)
  amount : Decimal.t                (* DecimalField(max_digits=12, decimal_places=2) *)
}.

(** inventory.Product *)
Record Product : Type := mkProduct {
  Product_pk : option Z;
  cost_price : Decimal.t;           (* DecimalField(max_digits=10, decimal_places=2) *)
  selling_price : Decimal.t;        (* DecimalField(max_digits=10, decimal_places=2) *)
  min_stock_level : Z               (* PositiveIntegerField(default=0) *)
}.

(** inventory.InventoryItem *)
Record InventoryItem : Type := mkInventoryItem {
  InventoryItem_pk : option Z;
  InventoryItem_product : Z;        (* related_name='inventory_items' *)
  InventoryItem_quantity : Z        (* IntegerField *)
}.

(** inventory.ProductImage *)
Record ProductImage : Type := mkProductImage {
  ProductImage_pk : option Z;
  ProductImage_product : Z;         (* related_name='images' *)
  is_primary : bool                 (* BooleanField(default=False) *)
}.

(** services.ServiceRequest *)
Record ServiceRequest : Type := mkServiceRequest {
  ServiceRequest_pk : option Z;
  request_number : string           (* CharField(max_length=50, unique=True) *)
}.

(** services.Schedule *)
Record Schedule : Type := mkSchedule {
  start_time : DateTime.t;
  end_time : DateTime.t
}.

(** core.Address: both foreign keys are nullable. *)
Record Address : Type := mkAddress {
  contact : option Z;
  company : option Z
}.

(** ** The store and the monad of model methods *)

(** The tables the methods touch, and the clock [timezone.now()] reads. *)
Record World : Type := mkWorld {
  invoices : gmap Z Invoice;
  invoice_items : gmap Z InvoiceItem;
  payments : gmap Z Payment;
  inventory_items : gmap Z InventoryItem;
  product_images : gmap Z ProductImage;
  service_requests : gmap Z ServiceRequest;
  now : DateTime.t
}.

Inductive exn : Type :=
  | ValidationError (msg : string)
  | IntegrityError
  | ValueError
  | DivisionByZero
  | InvalidOperation.

Inductive Result (A : Type) : Type :=
  | Ok (a : A)
  | Raise (e : exn).
Arguments Ok {A} a.
Arguments Raise {A} e.

(** A method runs against the store and returns or raises, leaving the
    store as it is at that point. *)
Definition M (A : Type) : Type := World -> Result A * World.

Definition ret {A} (a : A) : M A := fun w => (Ok a, w).

Definition raise {A} (e : exn) : M A := fun w => (Raise e, w).

Definition bind {A B} (c : M A) (k : A -> M B) : M B :=
  fun w =>
    match c w with
    | (Ok a, w') => k a w'
    | (Raise e, w') => (Raise e, w')
    end.

Declare Scope orm_scope.
Delimit Scope orm_scope with orm.
Notation "'let*' x ':=' c 'in' k" := (bind c (fun x => k))
  (at level 10, x name, c at level 100, k at level 200) : orm_scope.
Local Open Scope orm_scope.

(** [django.utils.timezone.now()] *)
Definition timezone_now : M DateTime.t := fun w => (Ok (now w), w).

(** ** The object-relational mapper

    What the methods use of [django.db.models]: the base [Model.save], the
    managers and query sets, and [aggregate(Sum(...))]. *)

(** A model class: its primary key, its table in the store and the value
    of its [unique=True] column, if it has one. *)
Class Model (R : Type) : Type := {
  pk : R -> option Z;
  set_pk : option Z -> R -> R;
  objects : World -> gmap Z R;
  set_objects : gmap Z R -> World -> World;
  unique_key : R -> option string
}.

#[export] Instance Invoice_Model : Model Invoice := {|
  pk := Invoice_pk;
  set_pk k r := mkInvoice k (invoice_number r) (Invoice_status r) (due_date r) (total_amount r);
  objects := invoices;
  set_objects t w :=
    mkWorld t (invoice_items w) (payments w) (inventory_items w)
            (product_images w) (service_requests w) (now w);
  unique_key r := Some (invoice_number r)
|}.

#[export] Instance InvoiceItem_Model : Model InvoiceItem := {|
  pk := InvoiceItem_pk;
  set_pk k r :=
    mkInvoiceItem k (InvoiceItem_invoice r) (quantity r) (unit_price r)
                  (discount_percentage r) (line_total r);
  objects := invoice_items;
  set_objects t w :=
    mkWorld (invoices w) t (payments w) (inventory_items w)
            (product_images w) (service_requests w) (now w);
  unique_key _ := None
|}.

#[export] Instance Payment_Model : Model Payment := {|
  pk := Payment_pk;
  set_pk k r := mkPayment k (payment_number r) (Payment_invoice r) (amount r);
  objects := payments;
  set_objects t w :=
    mkWorld (invoices w) (invoice_items w) t (inventory_items w)
            (product_images w) (service_requests w) (now w);
  unique_key r := Some (payment_number r)
|}.

#[export] Instance InventoryItem_Model : Model InventoryItem := {|
  pk := InventoryItem_pk;
  set_pk k r := mkInventoryItem k (InventoryItem_product r) (InventoryItem_quantity r);
  objects := inventory_items;
  set_objects t w :=
    mkWorld (invoices w) (invoice_items w) (payments w) t
            (product_images w) (service_requests w) (now w);
  unique_key _ := None
|}.

#[export] Instance ProductImage_Model : Model ProductImage := {|
  pk := ProductImage_pk;
  set_pk k r := mkProductImage k (ProductImage_product r) (is_primary r);
  objects := product_images;
  set_objects t w :=
    mkWorld (invoices w) (invoice_items w) (payments w) (inventory_items w)
            t (service_requests w) (now w);
  unique_key _ := None
|}.

#[export] Instance ServiceRequest_Model : Model ServiceRequest := {|
  pk := ServiceRequest_pk;
  set_pk k r := mkServiceRequest k (request_number r);
  objects := service_requests;
  set_objects t w :=
    mkWorld (invoices w) (invoice_items w) (payments w) (inventory_items w)
            (product_images w) t (now w);
  unique_key r := Some (request_number r)
|}.

Section ORM.
Context {R : Type} `{Model R}.

(** The instances of a table: each row with its key as primary key. *)
Definition instances (t : gmap Z R) : list R :=
  (fun kr : Z * R => set_pk (Some kr.1) kr.2) <$> map_to_list t.

(** [Model.objects.filter(...)]: a query set, evaluated on the store. *)
Definition objects_filter (p : R -> bool) : M (list R) :=
  fun w => (Ok (List.filter p (instances (objects w))), w).

(** [queryset.exclude(pk=key)]; [pk=None] matches no row, so nothing is
    excluded. *)
Definition exclude_pk (key : option Z) (qs : list R) : list R :=
  List.filter (fun r => negb (bool_decide (pk r = key))) qs.

(** [queryset.exists()] *)
Definition exists_ (qs : list R) : bool :=
  match qs with [] => false | _ :: _ => true end.

(** The reverse manager of a foreign key ([invoice.payments],
    [product.inventory_items]): the rows that reference the instance.
    An instance without primary key has no such manager. *)
Definition related (fk : R -> Z) (owner : option Z) : M (list R) :=
  match owner with
  | None => raise ValueError
  | Some k => objects_filter (fun r => fk r =? k)
  end.

(** Another row holds the same value in the unique column. *)
Definition unique_clash (k : Z) (self : R) (t : gmap Z R) : bool :=
  existsb
    (fun kr : Z * R =>
       negb (kr.1 =? k)
       && match unique_key kr.2, unique_key self with
          | Some a, Some b => String.eqb a b
          | _, _ => false
          end)
    (map_to_list t).

(** [Model.save]: an instance without primary key is inserted under a
    key the table does not use, one with a key replaces (or creates) the
    row of that key; a duplicate in a unique column is refused.  The row
    holds the values of the instance as they are, which is what character,
    integer, boolean and key columns store, and a decimal column when the
    value has the column's scale; the write of decimal columns in general
    is [Model_save_columns] below.  The rows a foreign key refers to are
    taken to be there: references are not checked. *)
Definition Model_save (self : R) : M R :=
  fun w =>
    let t := objects w in
    let k := match pk self with
             | Some k => k
             | None => fresh (dom t)
             end in
    if unique_clash k self t then (Raise IntegrityError, w)
    else
      let self' := set_pk (Some k) self in
      (Ok self', set_objects (<[k := self']> t) w).
End ORM.

(** [queryset.aggregate(total=Sum(field))['total']] over an integer
    column: [None] for an empty query set. *)
Definition Sum_int (xs : list Z) : option Z :=
  match xs with
  | [] => None
  | x :: xs' => Some (fold_left Z.add xs' x)
  end.

(** The same over a decimal column; the database adds exactly. *)
Definition Sum_decimal (xs : list Decimal.t) : option Decimal.t :=
  match xs with
  | [] => None
  | x :: xs' => Some (fold_left Decimal.add_exact xs' x)
  end.

(** [x or default] on an optional integer: [None] and [0] are falsy. *)
Definition or_int (x : option Z) (default : Z) : Z :=
  match x with
  | Some v => if v =? 0 then default else v
  | None => default
  end.

(** [x or default] on an optional decimal: [None] and zero are falsy. *)
Definition or_decimal (x : option Decimal.t) (default : Decimal.t) : Decimal.t :=
  match x with
  | Some v => if Decimal.is_zero v then default else v
  | None => default
  end.

(** [a / b] on decimals, with the traps of the default context. *)
Definition truediv (a b : Decimal.t) : Result Decimal.t :=
  match Decimal.div a b with
  | Some q => Ok q
  | None => Raise (if Decimal.is_zero a then InvalidOperation else DivisionByZero)
  end.

(** [bool(s)] of a string *)
Definition nonempty (s : string) : bool :=
  match s with EmptyString => false | String _ _ => true end.

(** A computation that returns or raises without touching the store. *)
Definition lift {A} (r : Result A) : M A := fun w => (r, w).

(** [x in [a, b, ...]] on strings *)
Definition in_list (x : string) (l : list string) : bool :=
  existsb (String.eqb x) l.

(** What a Python expression over decimals and integers evaluates to. *)
Inductive Number : Type :=
  | NInt (n : Z)
  | NDecimal (d : Decimal.t).

(** ** finance/models.py *)


(** [Invoice.is_overdue] *)
Definition Invoice_is_overdue (self : Invoice) : M bool :=
  if negb (in_list (Invoice_status self) ["paid"; "cancelled"]%string) then
    let* t := timezone_now in
    ret (Date.gtb (DateTime.date t) (due_date self))
  else ret false.

(** [Invoice.remaining_amount] *)
Definition Invoice_remaining_amount (self : Invoice) : M Decimal.t :=
  let* qs := related Payment_invoice (pk self) in
  let total_paid :=
    or_decimal (Sum_decimal (amount <$> qs)) (Decimal.mk 0 (-2)) in
  ret (Decimal.sub (total_amount self) total_paid).

(** [DecimalField.get_db_prep_save] of a field with [max_digits] and
    [decimal_places], as the base database operations adapt a decimal
    ([adapt_decimalfield_value], [format_number]): the value is quantized
    to [decimal_places] places in a context of [max_digits] digits.  This
    is the path of the SQLite backend of the development settings; with
    the PostgreSQL backend of the production settings the server rounds
    the [numeric(max_digits, decimal_places)] column itself, to the same
    value except that a tie goes away from zero, and reports an overflow
    as a database error. *)
Definition DecimalField_get_db_prep_save (max_digits decimal_places : Z)
    (value : Decimal.t) : M Decimal.t :=
  match Decimal.quantize max_digits (- decimal_places) value with
  | Some v => ret v
  | None => raise InvalidOperation
  end.

(** [Model.save] of a model whose columns adapt the values: the row is
    written as the columns hold it, the instance keeps its attributes and
    receives the primary key. *)
Definition Model_save_columns {R : Type} `{Model R}
    (get_db_prep_save : R -> M R) (self : R) : M R :=
  let* row := get_db_prep_save self in
  let* stored := Model_save row in
  ret (set_pk (pk stored) self).

(** The row of an invoice item as its columns hold it: [quantity] and
    [unit_price] are [DecimalField(max_digits=10, decimal_places=2)],
    [discount_percentage] is (5, 2) and [line_total] is (12, 2). *)
Definition InvoiceItem_get_db_prep_save (self : InvoiceItem) : M InvoiceItem :=
  let* q := DecimalField_get_db_prep_save 10 2 (quantity self) in
  let* u := DecimalField_get_db_prep_save 10 2 (unit_price self) in
  let* d := DecimalField_get_db_prep_save 5 2 (discount_percentage self) in
  let* l := DecimalField_get_db_prep_save 12 2 (line_total self) in
  ret (mkInvoiceItem (InvoiceItem_pk self) (InvoiceItem_invoice self) q u d l).

(** [InvoiceItem.save]: calculate the line total before saving. *)
Definition InvoiceItem_save (self : InvoiceItem) : M InvoiceItem :=
  let* discount_amount :=
    lift (truediv
            (Decimal.mul (Decimal.mul (unit_price self) (quantity self))
                         (discount_percentage self))
            (Decimal.of_int 100)) in
  let self :=
    mkInvoiceItem (InvoiceItem_pk self) (InvoiceItem_invoice self)
      (quantity self) (unit_price self) (discount_percentage self)
      (Decimal.sub (Decimal.mul (unit_price self) (quantity self))
                   discount_amount) in
  Model_save_columns InvoiceItem_get_db_prep_save self.

(** [Payment.save]: generate the payment number if not provided. *)
Definition Payment_save (self : Payment) : M Payment :=
  let* self :=
    (if negb (nonempty (payment_number self)) then
       let* t := timezone_now in
       let timestamp := DateTime.strftime t in
       ret (mkPayment (Payment_pk self) ("PAY-" ++ timestamp)
                      (Payment_invoice self) (amount self))
     else ret self) in
  Model_save self.

(** ** inventory/models.py *)

(** [Product.profit_margin] *)
Definition Product_profit_margin (self : Product) : Result Number :=
  if Decimal.gt0 (cost_price self) then
    match truediv (Decimal.sub (selling_price self) (cost_price self))
                  (cost_price self) with
    | Ok q => Ok (NDecimal (Decimal.mul q (Decimal.of_int 100)))
    | Raise e => Raise e
    end
  else Ok (NInt 0).

(** [Product.current_stock] *)
Definition Product_current_stock (self : Product) : M Z :=
  let* qs := related InventoryItem_product (Product_pk self) in
  ret (or_int (Sum_int (InventoryItem_quantity <$> qs)) 0).

(** [Product.is_low_stock] *)
Definition Product_is_low_stock (self : Product) : M bool :=
  let* current_stock := Product_current_stock self in
  ret (current_stock <=? min_stock_level self).

(** [Product.is_out_of_stock] *)
Definition Product_is_out_of_stock (self : Product) : M bool :=
  let* current_stock := Product_current_stock self in
  ret (current_stock <=? 0).

(** [ProductImage.clean]: only one primary image per product. *)
Definition ProductImage_clean (self : ProductImage) : M unit :=
  if is_primary self then
    let* qs :=
      objects_filter
        (fun r : ProductImage =>
           (ProductImage_product r =? ProductImage_product self)
           && is_primary r) in
    let existing_primary := exclude_pk (pk self) qs in
    if exists_ existing_primary then
      raise (ValidationError "Only one primary image is allowed per product.")
    else ret tt
  else ret tt.

(** ** services/models.py *)


(** [Schedule.clean] *)
Definition Schedule_clean (self : Schedule) : Result unit :=
  if DateTime.geb (start_time self) (end_time self) then
    Raise (ValidationError "End time must be after start time.")
  else Ok tt.

(** ** core/models.py *)

(** [bool(x)] of a nullable reference: [None] is falsy, an instance truthy. *)
Definition truthy {A} (x : option A) : bool :=
  match x with Some _ => true | None => false end.

(** [Address.clean]: either contact or company, but not both. *)
Definition Address_clean (self : Address) : Result unit :=
  if negb (truthy (contact self)) && negb (truthy (company self)) then
    Raise (ValidationError "Either contact or company must be specified.")
  else if truthy (contact self) && truthy (company self) then
    Raise (ValidationError "Cannot specify both contact and company.")
  else Ok tt.

(** ** What the specification says, in its own words *)

(** An address references exactly one of a contact or a company. *)
Definition references_exactly_one (a : Address) : Prop :=
  (contact a <> None /\ company a = None)
  \/ (contact a = None /\ company a <> None).

(** Some other row (a different primary key) of the same product is
    already primary. *)
Definition other_primary (self : ProductImage) (t : gmap Z ProductImage) : Prop :=
  exists k r,
    t !! k = Some r /\ Some k <> ProductImage_pk self
    /\ ProductImage_product r = ProductImage_product self
    /\ is_primary r = true.

(** Each product has at most one primary image. *)
Definition at_most_one_primary (t : gmap Z ProductImage) : Prop :=
  forall k1 k2 r1 r2,
    t !! k1 = Some r1 -> t !! k2 = Some r2 ->
    is_primary r1 = true -> is_primary r2 = true ->
    ProductImage_product r1 = ProductImage_product r2 ->
    k1 = k2.

(** The sum of the quantities of the inventory items of product [k]. *)
Definition stock_total (k : Z) (t : gmap Z InventoryItem) : Z :=
  map_fold
    (fun _ r acc =>
       if InventoryItem_product r =? k then InventoryItem_quantity r + acc else acc)
    0 t.

(** The sum of the amounts of the payments of invoice [k], as a rational. *)
Definition paid_total (k : Z) (t : gmap Z Payment) : Q :=
  map_fold
    (fun _ p acc =>
       if Payment_invoice p =? k then (Decimal.value (amount p) + acc)%Q else acc)
    0%Q t.



Definition set_payment_number (s : string) (r : Payment) : Payment :=
  mkPayment (Payment_pk r) s (Payment_invoice r) (amount r).


Definition set_line_total (x : Decimal.t) (r : InvoiceItem) : InvoiceItem :=
  mkInvoiceItem (InvoiceItem_pk r) (InvoiceItem_invoice r) (quantity r)
                (unit_price r) (discount_percentage r) x.

(** The value of a decimal of at most two places, in hundredths. *)
Definition cents (d : Decimal.t) : Z :=
  Decimal.coef d * 10 ^ (Decimal.exp d + 2).

(** ** A sample store

    One invoice of 100.00 with two payments (25.00 and 15.50) and a payment
    of another invoice; three stock movements (+5 and -2 for product 1, +7
    for product 2); two images of product 1, the first one primary; the
    clock at 2024-03-05 07:08:09. *)

Definition sample_world : World :=
  mkWorld
    {[ 1 := mkInvoice (Some 1) "INV-20240101120000" "sent"
                      (Date.mk 2024 2 1) (Decimal.mk 10000 (-2)) ]}
    ∅
    {[ 1 := mkPayment (Some 1) "PAY-20240110093000" 1 (Decimal.mk 2500 (-2));
       2 := mkPayment (Some 2) "PAY-20240120101500" 1 (Decimal.mk 1550 (-2));
       3 := mkPayment (Some 3) "PAY-20240121080000" 2 (Decimal.mk 999 (-2)) ]}
    {[ 1 := mkInventoryItem (Some 1) 1 5;
       2 := mkInventoryItem (Some 2) 1 (-2);
       3 := mkInventoryItem (Some 3) 2 7 ]}
    {[ 1 := mkProductImage (Some 1) 1 true;
       2 := mkProductImage (Some 2) 1 false ]}
    ∅
    (DateTime.mk 2024 3 5 7 8 9 0).

Definition sample_invoice : Invoice :=
  mkInvoice (Some 1) "INV-20240101120000" "sent"
            (Date.mk 2024 2 1) (Decimal.mk 10000 (-2)).

Definition sample_product : Product :=
  mkProduct (Some 1) (Decimal.mk 300 (-2)) (Decimal.mk 400 (-2)) 5.

(** A line of 3.00 units at 12.50 with 10.00 percent discount. *)
Definition sample_item : InvoiceItem :=
  mkInvoiceItem None 1 (Decimal.mk 300 (-2)) (Decimal.mk 1250 (-2))
                (Decimal.mk 1000 (-2)) (Decimal.mk 0 (-2)).

(** ** Further methods of the applications *)

(** What else the code below can raise. *)
Inductive PyError : Type :=
  | KeyError (key : string)
  | SerializerValidationError (msg : string)
  | RecursionError
  | DoesNotExist.

(** [a > b] on datetimes *)
Definition DateTime_gtb (a b : DateTime.t) : bool :=
  match tuple_cmp (DateTime.fields a) (DateTime.fields b) with
  | Gt => true
  | _ => false
  end.

(** accounts.PasswordResetToken *)
Record PasswordResetToken : Type := mkPasswordResetToken {
  token : string;
  expires_at : DateTime.t;
  is_used : bool
}.

(** [PasswordResetToken.is_expired] *)
Definition PasswordResetToken_is_expired (self : PasswordResetToken) : M bool :=
  let* t := timezone_now in
  ret (DateTime_gtb t (expires_at self)).

(** [s.split(sep)] for a separator of one character: never empty. *)
Fixpoint split (sep : ascii) (s : string) : list string :=
  match s with
  | EmptyString => [EmptyString]
  | String c s' =>
      if Ascii.eqb c sep then EmptyString :: split sep s'
      else match split sep s' with
           | h :: t => String c h :: t
           | [] => [String c EmptyString]
           end
  end.

(** [sep.join(parts)] *)
Fixpoint join (sep : string) (parts : list string) : string :=
  match parts with
  | [] => EmptyString
  | [p] => p
  | p :: rest => (p ++ sep ++ join sep rest)%string
  end.

(** The two keys of [request.META] that [get_client_ip] reads. *)
Record RequestMeta : Type := mkRequestMeta {
  HTTP_X_FORWARDED_FOR : option string;
  REMOTE_ADDR : option string
}.

(** [LoginView.get_client_ip] (accounts/views.py) *)
Definition get_client_ip (meta : RequestMeta) : option string :=
  match HTTP_X_FORWARDED_FOR meta with
  | Some x_forwarded_for =>
      if nonempty x_forwarded_for then
        match split "," x_forwarded_for with
        | ip :: _ => Some ip
        | [] => None
        end
      else REMOTE_ADDR meta
  | None => REMOTE_ADDR meta
  end.

(** A value of a serializer's data dictionary. *)
Inductive Value : Type :=
  | VNone
  | VInstance (key : Z)
  | VStr (s : string)
  | VBool (b : bool).

(** [bool(v)] *)
Definition Value_truthy (v : Value) : bool :=
  match v with
  | VNone => false
  | VInstance _ => true
  | VStr s => nonempty s
  | VBool b => b
  end.

(** [data.get(key)]: [None] for a missing key. *)
Definition dict_get (data : gmap string Value) (key : string) : Value :=
  match data !! key with
  | Some v => v
  | None => VNone
  end.

(** [data[key]] *)
Definition dict_item (data : gmap string Value) (key : string) : PyError + Value :=
  match data !! key with
  | Some v => inr v
  | None => inl (KeyError key)
  end.

(** [AddressSerializer.validate] (core/serializers.py) *)
Definition AddressSerializer_validate (data : gmap string Value)
    : PyError + gmap string Value :=
  let contact := dict_get data "contact" in
  let company := dict_get data "company" in
  if negb (Value_truthy contact) && negb (Value_truthy company) then
    inl (SerializerValidationError "Either contact or company must be specified.")
  else if Value_truthy contact && Value_truthy company then
    inl (SerializerValidationError "Cannot specify both contact and company.")
  else inr data.

(** The address a validated dictionary describes. *)
Definition address_of_data (data : gmap string Value) : Address :=
  let ref (v : Value) := match v with VInstance k => Some k | _ => None end in
  mkAddress (ref (dict_get data "contact")) (ref (dict_get data "company")).

(** [x != y] on values *)
Definition Value_eqb (x y : Value) : bool :=
  match x, y with
  | VNone, VNone => true
  | VInstance a, VInstance b => a =? b
  | VStr a, VStr b => String.eqb a b
  | VBool a, VBool b => Bool.eqb a b
  | _, _ => false
  end.

(** [RegisterSerializer.validate] (accounts/serializers.py) *)
Definition RegisterSerializer_validate (data : gmap string Value)
    : PyError + gmap string Value :=
  match dict_item data "password" with
  | inl e => inl e
  | inr password =>
      match dict_item data "password_confirm" with
      | inl e => inl e
      | inr password_confirm =>
          if negb (Value_eqb password password_confirm) then
            inl (SerializerValidationError "Passwords don't match.")
          else inr data
      end
  end.

(** [RegisterSerializer.create]: [pop] removes the confirmation and
    fails on a dictionary without it; the rest is handed to
    [User.objects.create_user], and the user that call returns is the
    result.  [create_user] is the manager method of Django's [UserManager],
    which is not part of this repository: it is a parameter here, returning
    a user of type [U] or raising an exception of type [E], and what it
    raises leaves [create] as it is. *)
Definition RegisterSerializer_create {E U : Type}
    (create_user : gmap string Value -> E + U)
    (validated_data : gmap string Value) : (PyError + E) + U :=
  match validated_data !! "password_confirm"%string with
  | None => inl (inl (KeyError "password_confirm"))
  | Some _ =>
      match create_user (delete "password_confirm"%string validated_data) with
      | inr user => inr user
      | inl e => inl (inr e)
      end
  end.

(** core.Contact *)
Record Contact : Type := mkContact {
  first_name : string;
  last_name : string;
  contact_type : string;
  Contact_is_active : bool
}.

Definition CONTACT_TYPES : list string :=
  ["customer"; "supplier"; "employee"; "other"]%string.

(** [Contact.full_name] *)
Definition Contact_full_name (self : Contact) : string :=
  (first_name self ++ " " ++ last_name self)%string.

(** [queryset.filter(p).count()] on a table *)
Definition count_where {R : Type} (p : R -> bool) (t : gmap Z R) : nat :=
  length (List.filter p ((map_to_list t).*2)).

(** The response of [ContactViewSet.statistics] (core/views.py). *)
Record ContactStatistics : Type := mkContactStatistics {
  total_contacts : nat;
  active_contacts : nat;
  inactive_contacts : nat;
  by_type : list (string * nat)
}.

(** [ContactViewSet.statistics] *)
Definition ContactViewSet_statistics (t : gmap Z Contact) : ContactStatistics :=
  mkContactStatistics
    (size t)
    (count_where (fun c => Bool.eqb (Contact_is_active c) true) t)
    (count_where (fun c => Bool.eqb (Contact_is_active c) false) t)
    ((fun ty => (ty, count_where (fun c => String.eqb (contact_type c) ty) t))
       <$> CONTACT_TYPES).

(** inventory.Category: the parent is a nullable reference to a category. *)
Record Category : Type := mkCategory {
  Category_name : string;
  Category_parent : option Z
}.

(** [Category.full_path]: [depth] is the number of frames the interpreter
    still allows; reading [self.parent] loads the parent row. *)
Fixpoint Category_full_path (depth : nat) (t : gmap Z Category) (self : Category)
    : PyError + string :=
  match depth with
  | O => inl RecursionError
  | S d =>
      match Category_parent self with
      | Some k =>
          match t !! k with
          | Some parent =>
              match Category_full_path d t parent with
              | inr path => inr (path ++ " > " ++ Category_name self)%string
              | inl e => inl e
              end
          | None => inl DoesNotExist
          end
      | None => inr (Category_name self)
      end
  end.

(** The names from the root down to a category, along the parent links. *)
Inductive path_from_root (t : gmap Z Category) : Category -> list string -> Prop :=
  | path_root (c : Category) :
      Category_parent c = None -> path_from_root t c [Category_name c]
  | path_child (c parent : Category) (k : Z) (names : list string) :
      Category_parent c = Some k -> t !! k = Some parent ->
      path_from_root t parent names ->
      path_from_root t c (names ++ [Category_name c]).

(** The character [c] occurs in [s]. *)
Fixpoint occurs (c : ascii) (s : string) : bool :=
  match s with
  | EmptyString => false
  | String c' s' => Ascii.eqb c' c || occurs c s'
  end.

(** What a related field of a serializer yields: an instance or [None]. *)
Definition is_reference (v : Value) : Prop :=
  v = VNone \/ exists k, v = VInstance k.

(** ** core/admin.py, services/admin.py *)

(** [SystemConfigurationAdmin.value_preview] (core/admin.py), on the
    [value] of the row: [s[:50]] is [substring 0 50 s]. *)
Definition value_preview (value : string) : string :=
  if (50 <? String.length value)%nat
  then (substring 0 50 value ++ "...")%string
  else value.

(** [ServiceNoteAdmin.note_preview] (services/admin.py), on the [note] of
    the row. *)
Definition note_preview (note : string) : string :=
  if (50 <? String.length note)%nat
  then (substring 0 50 note ++ "...")%string
  else note.

(** * Properties *)

(** ** Queries leave the store alone *)

Section ORM_facts.
Context {R : Type} `{Model R}.

Lemma objects_filter_run (p : R -> bool) (w : World) :
  objects_filter p w = (Ok (List.filter p (instances (objects w))), w).
Proof. reflexivity. Qed.

Lemma related_run (fk : R -> Z) (k : Z) (w : World) :
  related fk (Some k) w
  = (Ok (List.filter (fun r => fk r =? k) (instances (objects w))), w).
Proof. reflexivity. Qed.

Lemma in_instances (t : gmap Z R) (r : R) :
  In r (instances t) <-> exists k r0, t !! k = Some r0 /\ r = set_pk (Some k) r0.
Proof.
  unfold instances. rewrite <- list_elem_of_In, list_elem_of_fmap. split.
  - intros [[k r0] [-> Hin]]. apply elem_of_map_to_list in Hin. eauto.
  - intros (k & r0 & Hk & ->). exists (k, r0). split; [reflexivity|].
    by apply elem_of_map_to_list.
Qed.

Lemma exists_true (qs : list R) : exists_ qs = true <-> exists r, In r qs.
Proof.
  destruct qs as [|r qs]; simpl; split; try discriminate; eauto.
  intros [r []].
Qed.
End ORM_facts.

(** ** Python's tuple comparison *)

Lemma tuple_cmp_antisym (a b : list Z) :
  tuple_cmp b a = CompOpp (tuple_cmp a b).
Proof.
  revert b. induction a as [|x a IH]; intros [|y b]; simpl; try reflexivity.
  rewrite (Z.compare_antisym x y). destruct (x ?= y); simpl; auto.
Qed.

Lemma Date_gtb_after (a b : Date.t) : Date.gtb a b = true <-> Date.after a b.
Proof.
  destruct a as [ya ma da], b as [yb mb db].
  unfold Date.gtb, Date.after, Date.fields; simpl.
  destruct (Z.compare_spec ya yb), (Z.compare_spec ma mb), (Z.compare_spec da db);
    simpl; split; intros Hx; try discriminate; try reflexivity;
    try (destruct Hx as [?|[[? ?]|[? [? ?]]]]; lia);
    try (left; lia); try (right; left; lia); try (right; right; lia).
Qed.

Lemma DateTime_geb_ltb (a b : DateTime.t) : DateTime.geb a b = negb (DateTime.ltb a b).
Proof. unfold DateTime.geb, DateTime.ltb. by destruct (tuple_cmp _ _). Qed.

Lemma DateTime_ltb_irrefl (a : DateTime.t) : DateTime.ltb a a = false.
Proof.
  unfold DateTime.ltb.
  pose proof (tuple_cmp_antisym (DateTime.fields a) (DateTime.fields a)) as Ha.
  destruct (tuple_cmp _ _); simpl in Ha; congruence.
Qed.

Lemma DateTime_ltb_asym (a b : DateTime.t) :
  DateTime.ltb a b = true -> DateTime.ltb b a = false.
Proof.
  unfold DateTime.ltb.
  rewrite (tuple_cmp_antisym (DateTime.fields a) (DateTime.fields b)).
  by destruct (tuple_cmp _ _).
Qed.

(** ** C5: an address references exactly one of a contact or a company *)

(** C5. [Address.clean] returns exactly when the address references exactly
    one of a contact or a company, and raises a validation error exactly
    otherwise: with neither reference and with both. *)
Theorem Address_clean_exactly_one (self : Address) :
  (Address_clean self = Ok tt <-> references_exactly_one self)
  /\ ((exists msg, Address_clean self = Raise (ValidationError msg))
      <-> ~ references_exactly_one self)
  /\ (contact self = None -> company self = None ->
      Address_clean self
      = Raise (ValidationError "Either contact or company must be specified."))
  /\ (contact self <> None -> company self <> None ->
      Address_clean self
      = Raise (ValidationError "Cannot specify both contact and company.")).
Proof.
  destruct self as [[c|] [m|]]; unfold Address_clean, references_exactly_one; simpl;
    (split; [|split; [|split]]);
    try (intros; congruence);
    try (split; [ discriminate | intros [[? ?]|[? ?]]; congruence ]);
    try (split; [ intros _; intros [[? ?]|[? ?]]; congruence | intros _; eauto ]);
    try (split; [ intros _; ((left; split; congruence) || (right; split; congruence))
                | reflexivity ]);
    try (split; [ intros [? ?]; discriminate
                | intros Hn; exfalso; apply Hn;
                  ((left; split; congruence) || (right; split; congruence)) ]).
Qed.

(** ** C6: a schedule's end time follows its start time *)

(** C6. [Schedule.clean] raises a validation error exactly when
    [start_time >= end_time], and returns exactly when [start_time] is
    strictly before [end_time]; equal times are refused. *)
Theorem Schedule_clean_end_after_start (self : Schedule) :
  ((exists msg, Schedule_clean self = Raise (ValidationError msg))
   <-> DateTime.geb (start_time self) (end_time self) = true)
  /\ (Schedule_clean self = Ok tt
      <-> DateTime.ltb (start_time self) (end_time self) = true)
  /\ (DateTime.geb (start_time self) (end_time self) = true
      <-> DateTime.ltb (start_time self) (end_time self) = false)
  /\ (start_time self = end_time self -> Schedule_clean self <> Ok tt).
Proof.
  unfold Schedule_clean. rewrite DateTime_geb_ltb.
  assert (Hirr : start_time self = end_time self ->
                 DateTime.ltb (start_time self) (end_time self) = false)
    by (intros ->; apply DateTime_ltb_irrefl).
  destruct (DateTime.ltb (start_time self) (end_time self)) eqn:E; simpl;
    repeat split; try discriminate; try congruence; eauto;
    try (intros [? ?]; discriminate).
  intros Heq _. specialize (Hirr Heq). discriminate.
Qed.

(** ** C3: the overdue flag *)

Lemma in_list_paid_cancelled (s : string) :
  in_list s ["paid"; "cancelled"]%string = false
  <-> s <> "paid"%string /\ s <> "cancelled"%string.
Proof.
  unfold in_list; simpl.
  destruct (String.eqb_spec s "paid"), (String.eqb_spec s "cancelled"); simpl;
    split; try discriminate; try tauto; intros [? ?]; congruence.
Qed.

(** C3. [Invoice.is_overdue] is computed on read, leaves the store as it
    is, and is true exactly when the status is neither 'paid' nor
    'cancelled' and the current date is strictly after the due date; with
    the status 'overdue' stored, the answer is the date comparison alone. *)
Theorem Invoice_is_overdue_spec (self : Invoice) (w : World) :
  exists b : bool,
    Invoice_is_overdue self w = (Ok b, w)
    /\ (b = true <->
        Invoice_status self <> "paid"%string
        /\ Invoice_status self <> "cancelled"%string
        /\ Date.after (DateTime.date (now w)) (due_date self))
    /\ (Invoice_status self = "overdue"%string ->
        b = Date.gtb (DateTime.date (now w)) (due_date self)).
Proof.
  unfold Invoice_is_overdue.
  destruct (in_list (Invoice_status self) ["paid"; "cancelled"]%string) eqn:E; simpl.
  - exists false. split; [reflexivity|]. split.
    + split; [discriminate|]. intros (Hp & Hc & _).
      assert (in_list (Invoice_status self) ["paid"; "cancelled"]%string = false)
        by (apply in_list_paid_cancelled; auto).
      congruence.
    + intros Hs. rewrite Hs in E. discriminate.
  - exists (Date.gtb (DateTime.date (now w)) (due_date self)).
    split; [reflexivity|]. split; [|reflexivity].
    apply in_list_paid_cancelled in E. rewrite Date_gtb_after. tauto.
Qed.

(** ** C2 and C10: stock levels *)

Lemma fold_left_Zadd (l : list Z) (a : Z) :
  fold_left Z.add l a = a + foldr Z.add 0 l.
Proof.
  revert a. induction l as [|x l IH]; intros a; simpl; [lia|]. rewrite IH. lia.
Qed.

Lemma or_int_Sum_int (xs : list Z) : or_int (Sum_int xs) 0 = foldr Z.add 0 xs.
Proof.
  destruct xs as [|x xs]; simpl; [reflexivity|].
  rewrite fold_left_Zadd. destruct (Z.eqb_spec (x + foldr Z.add 0 xs) 0); lia.
Qed.

Lemma stock_of_rows (k : Z) (l : list (Z * InventoryItem)) :
  foldr Z.add 0
    (InventoryItem_quantity
       <$> List.filter (fun r => InventoryItem_product r =? k)
             ((fun kr : Z * InventoryItem => set_pk (Some kr.1) kr.2) <$> l))
  = foldr
      (uncurry (fun (_ : Z) r acc =>
         if InventoryItem_product r =? k then InventoryItem_quantity r + acc else acc))
      0 l.
Proof.
  induction l as [|[i r] l IH]; simpl in *; [reflexivity|].
  destruct (InventoryItem_product r =? k); simpl; [f_equal|]; exact IH.
Qed.

Lemma Product_current_stock_run (self : Product) (w : World) (k : Z) :
  Product_pk self = Some k ->
  Product_current_stock self w = (Ok (stock_total k (inventory_items w)), w).
Proof.
  intros Hk. unfold Product_current_stock, bind. rewrite Hk, related_run.
  rewrite or_int_Sum_int. unfold stock_total. rewrite map_fold_foldr.
  unfold instances. simpl objects. rewrite stock_of_rows. reflexivity.
Qed.

Lemma stock_total_empty (k : Z) : stock_total k ∅ = 0.
Proof. reflexivity. Qed.

Lemma stock_total_insert (k i : Z) (r : InventoryItem) (t : gmap Z InventoryItem) :
  t !! i = None ->
  stock_total k (<[i := r]> t)
  = (if InventoryItem_product r =? k then InventoryItem_quantity r else 0)
    + stock_total k t.
Proof.
  intros Hi. unfold stock_total. rewrite map_fold_insert_L; [|intros; repeat case_match; lia|done].
  destruct (InventoryItem_product r =? k); lia.
Qed.

Lemma stock_total_none (k : Z) (t : gmap Z InventoryItem) :
  (forall i r, t !! i = Some r -> InventoryItem_product r <> k) ->
  stock_total k t = 0.
Proof.
  induction t as [|i r t Hi IH] using map_ind; intros Hno; [reflexivity|].
  rewrite stock_total_insert by done.
  rewrite IH.
  - specialize (Hno i r (lookup_insert_eq _ _ _)).
    destruct (Z.eqb_spec (InventoryItem_product r) k); [contradiction|reflexivity].
  - intros j r' Hj. apply (Hno j). rewrite lookup_insert_ne; [done|]. congruence.
Qed.

(** C2. [Product.current_stock] is computed on read from the inventory item
    rows: for a product stored under key [k] it is the sum of the quantities
    of the rows whose product is [k], the store is left as it is, and it
    is 0 when no row references the product. *)
Theorem Product_current_stock_spec (self : Product) (w : World) (k : Z) :
  Product_pk self = Some k ->
  Product_current_stock self w = (Ok (stock_total k (inventory_items w)), w)
  /\ ((forall i r, inventory_items w !! i = Some r -> InventoryItem_product r <> k) ->
      Product_current_stock self w = (Ok 0, w)).
Proof.
  intros Hk. split; [by apply Product_current_stock_run|].
  intros Hno. rewrite (Product_current_stock_run self w k Hk).
  by rewrite stock_total_none.
Qed.

Lemma Product_current_stock_witness :
  Product_current_stock sample_product sample_world = (Ok 3, sample_world).
Proof.
  destruct (Product_current_stock_spec sample_product sample_world 1 eq_refl) as [H _].
  rewrite H. vm_compute. reflexivity.
Defined.

Lemma Product_is_out_of_stock_run (self : Product) (w : World) (k : Z) :
  Product_pk self = Some k ->
  Product_is_out_of_stock self w
  = (Ok (stock_total k (inventory_items w) <=? 0), w).
Proof.
  intros Hk. unfold Product_is_out_of_stock, bind.
  by rewrite (Product_current_stock_run self w k Hk).
Qed.

Lemma Product_is_low_stock_run (self : Product) (w : World) (k : Z) :
  Product_pk self = Some k ->
  Product_is_low_stock self w
  = (Ok (stock_total k (inventory_items w) <=? min_stock_level self), w).
Proof.
  intros Hk. unfold Product_is_low_stock, bind.
  by rewrite (Product_current_stock_run self w k Hk).
Qed.

(** C10. With a non-negative minimum stock level, a product that is out of
    stock is also low on stock. *)
Theorem out_of_stock_implies_low_stock (self : Product) (w : World) :
  0 <= min_stock_level self ->
  (Product_is_out_of_stock self w).1 = Ok true ->
  (Product_is_low_stock self w).1 = Ok true.
Proof.
  intros Hmin. unfold Product_is_out_of_stock, Product_is_low_stock, bind.
  destruct (Product_current_stock self w) as [[s|e] w']; simpl; [|discriminate].
  intros Hout. injection Hout as Hout. f_equal.
  apply Z.leb_le in Hout. apply Z.leb_le. lia.
Qed.

Lemma out_of_stock_implies_low_stock_witness :
  (Product_is_low_stock
     (mkProduct (Some 7) (Decimal.mk 300 (-2)) (Decimal.mk 400 (-2)) 0)
     sample_world).1 = Ok true.
Proof.
  apply out_of_stock_implies_low_stock; [simpl; lia | vm_compute; reflexivity].
Defined.

(** ** C7: one primary image per product *)

Lemma existing_primary_iff (self : ProductImage) (t : gmap Z ProductImage) :
  exists_
    (exclude_pk (pk self)
       (List.filter
          (fun r : ProductImage =>
             (ProductImage_product r =? ProductImage_product self) && is_primary r)
          (instances t))) = true
  <-> other_primary self t.
Proof.
  rewrite exists_true. unfold exclude_pk, other_primary. split.
  - intros (r & Hr). apply filter_In in Hr as [Hr Hpk].
    apply filter_In in Hr as [Hr Hp]. apply in_instances in Hr as (k & r0 & Hk & ->).
    apply andb_true_iff in Hp as [Hprod Hprim]. apply Z.eqb_eq in Hprod.
    apply negb_true_iff, bool_decide_eq_false in Hpk. simpl in *.
    exists k, r0. repeat split; auto.
  - intros (k & r0 & Hk & Hne & Hprod & Hprim).
    exists (set_pk (Some k) r0). apply filter_In. split.
    + apply filter_In. split; [apply in_instances; eauto|].
      simpl. rewrite Hprod, Hprim, Z.eqb_refl. reflexivity.
    + apply negb_true_iff, bool_decide_eq_false. simpl. exact Hne.
Qed.

Lemma ProductImage_clean_run (self : ProductImage) (w : World) :
  ProductImage_clean self w
  = if is_primary self
       && exists_
            (exclude_pk (pk self)
               (List.filter
                  (fun r : ProductImage =>
                     (ProductImage_product r =? ProductImage_product self)
                     && is_primary r)
                  (instances (product_images w))))
    then (Raise (ValidationError "Only one primary image is allowed per product."), w)
    else (Ok tt, w).
Proof.
  unfold ProductImage_clean. destruct (is_primary self); simpl; [|reflexivity].
  unfold bind. rewrite objects_filter_run. simpl objects.
  destruct (exists_ _); reflexivity.
Qed.

(** C7. For a primary image, [ProductImage.clean] raises exactly when some
    other row of the same product is already primary; for an image that is
    not primary it never raises; so in a store where every row passes
    validation, each product has at most one primary image. *)
Theorem ProductImage_clean_one_primary (self : ProductImage) (w : World) :
  (is_primary self = true ->
   (ProductImage_clean self w
    = (Raise (ValidationError "Only one primary image is allowed per product."), w)
    <-> other_primary self (product_images w))
   /\ (ProductImage_clean self w = (Ok tt, w)
       <-> ~ other_primary self (product_images w)))
  /\ (is_primary self = false -> ProductImage_clean self w = (Ok tt, w))
  /\ ((forall k r, product_images w !! k = Some r ->
                   ProductImage_clean (set_pk (Some k) r) w = (Ok tt, w)) ->
      at_most_one_primary (product_images w)).
Proof.
  split; [|split].
  - intros Hprim. rewrite ProductImage_clean_run, Hprim. simpl.
    pose proof (existing_primary_iff self (product_images w)) as Hiff.
    destruct (exists_ _); (split; split).
    + intros _. apply Hiff. reflexivity.
    + reflexivity.
    + discriminate.
    + intros Hno. exfalso. apply Hno, Hiff. reflexivity.
    + discriminate.
    + intros Ho. apply Hiff in Ho. discriminate.
    + intros _ Ho. apply Hiff in Ho. discriminate.
    + reflexivity.
  - intros Hprim. rewrite ProductImage_clean_run, Hprim. reflexivity.
  - intros Hvalid k1 k2 r1 r2 H1 H2 Hp1 Hp2 Hprod.
    destruct (decide (k1 = k2)) as [|Hne]; [assumption|exfalso].
    specialize (Hvalid k1 r1 H1). rewrite ProductImage_clean_run in Hvalid.
    simpl in Hvalid. rewrite Hp1 in Hvalid. simpl in Hvalid.
    assert (Ho : other_primary (set_pk (Some k1) r1) (product_images w)).
    { exists k2, r2. simpl. repeat split; auto. congruence. }
    apply existing_primary_iff in Ho. simpl in Ho. rewrite Ho in Hvalid.
    discriminate.
Qed.

(** ** C4: document numbers from timestamps *)

Lemma string_length_append (a b : string) :
  String.length (a ++ b)%string = (String.length a + String.length b)%nat.
Proof. induction a as [|c a IH]; simpl; [reflexivity|]. by rewrite IH. Qed.









(** ** Decimal arithmetic: when the context does not round *)

Lemma pow10_pos (k : Z) : 0 <= k -> 0 < 10 ^ k.
Proof. intros. apply Z.pow_pos_nonneg; lia. Qed.

Lemma pow10_succ (k : Z) : 1 <= k -> 10 ^ k = 10 * 10 ^ (k - 1).
Proof.
  intros Hk. replace k with (Z.succ (k - 1)) at 1 by lia.
  apply Z.pow_succ_r. lia.
Qed.

Lemma ndigits_fuel_le (fuel : nat) (n p : Z) :
  1 <= p -> n < 10 ^ p -> Decimal.ndigits_fuel fuel n <= p.
Proof.
  revert n p. induction fuel as [|fuel IH]; intros n p Hp Hn; simpl; [lia|].
  destruct (Z.ltb_spec n 10); [lia|].
  assert (2 <= p).
  { destruct (Z.eq_dec p 1) as [->|]; [|lia]. change (10 ^ 1) with 10 in Hn. lia. }
  assert (n / 10 < 10 ^ (p - 1)).
  { apply Z.div_lt_upper_bound; [lia|]. rewrite <- pow10_succ by lia. exact Hn. }
  specialize (IH (n / 10) (p - 1)). lia.
Qed.

Lemma ndigits_le (n p : Z) : 1 <= p -> Z.abs n < 10 ^ p -> Decimal.ndigits n <= p.
Proof. intros. unfold Decimal.ndigits. by apply ndigits_fuel_le. Qed.

Lemma ndigits_pos_fuel (fuel : nat) (n : Z) : 1 <= Decimal.ndigits_fuel fuel n.
Proof.
  revert n. induction fuel as [|fuel IH]; intros n; simpl; [lia|].
  destruct (n <? 10); [lia|]. specialize (IH (n / 10)). lia.
Qed.

(** The fuel of [ndigits] is enough: a coefficient [n] that is not zero has
    exactly [ndigits n] decimal digits. *)
Lemma ndigits_fuel_spec (fuel : nat) (n : Z) :
  0 < n < 10 ^ (Z.of_nat fuel + 1) ->
  10 ^ (Decimal.ndigits_fuel fuel n - 1) <= n < 10 ^ Decimal.ndigits_fuel fuel n.
Proof.
  revert n. induction fuel as [|fuel IH]; intros n Hn.
  - simpl in *. change (10 ^ 1) with 10 in *. change (10 ^ 0) with 1. lia.
  - cbn [Decimal.ndigits_fuel]. destruct (Z.ltb_spec n 10).
    + change (10 ^ 1) with 10. change (10 ^ (1 - 1)) with 1. lia.
    + pose proof (ndigits_pos_fuel fuel (n / 10)) as Hd.
      rewrite Nat2Z.inj_succ in Hn.
      rewrite (pow10_succ (Z.succ (Z.of_nat fuel) + 1)) in Hn by lia.
      replace (Z.succ (Z.of_nat fuel) + 1 - 1) with (Z.of_nat fuel + 1) in Hn by lia.
      assert (Hq : 0 < n / 10 < 10 ^ (Z.of_nat fuel + 1))
        by (split; [|apply Z.div_lt_upper_bound]; Z.to_euclidean_division_equations; lia).
      specialize (IH (n / 10) Hq).
      replace (1 + Decimal.ndigits_fuel fuel (n / 10) - 1)
        with (Decimal.ndigits_fuel fuel (n / 10)) by lia.
      rewrite (pow10_succ (1 + Decimal.ndigits_fuel fuel (n / 10))) by lia.
      replace (1 + Decimal.ndigits_fuel fuel (n / 10) - 1)
        with (Decimal.ndigits_fuel fuel (n / 10)) by lia.
      destruct (Z.eq_dec (Decimal.ndigits_fuel fuel (n / 10)) 1) as [H1|H1].
      * rewrite H1 in *. change (10 ^ 1) with 10 in *. change (10 ^ (1 - 1)) with 1 in *.
        Z.to_euclidean_division_equations; lia.
      * rewrite (pow10_succ (Decimal.ndigits_fuel fuel (n / 10))) by lia.
        rewrite (pow10_succ (Decimal.ndigits_fuel fuel (n / 10))) in IH by lia.
        Z.to_euclidean_division_equations; lia.
Qed.

Lemma ndigits_spec (n : Z) :
  n <> 0 -> 10 ^ (Decimal.ndigits n - 1) <= Z.abs n < 10 ^ Decimal.ndigits n.
Proof.
  intros Hn. unfold Decimal.ndigits. apply ndigits_fuel_spec.
  split; [lia|]. rewrite Z2Nat.id by apply Z.log2_nonneg.
  pose proof (Z.log2_spec (Z.abs n) ltac:(lia)) as [_ Hlt].
  eapply Z.lt_le_trans; [exact Hlt|].
  rewrite Z.add_1_r. apply Z.pow_le_mono_l. lia.
Qed.

(** A coefficient of at most 28 digits passes [_fix] unchanged. *)
Lemma fix_small (d : Decimal.t) :
  Z.abs (Decimal.coef d) < 10 ^ 28 -> Decimal.fix_ d = d.
Proof.
  intros Hc. unfold Decimal.fix_.
  pose proof (ndigits_le (Decimal.coef d) 28 ltac:(lia) Hc) as Hn.
  unfold Decimal.prec. destruct (Z.leb_spec (Decimal.ndigits (Decimal.coef d)) 28); [reflexivity|lia].
Qed.

Local Open Scope Q_scope.

Lemma ten_nonzero : ~ (10 # 1) == 0.
Proof. discriminate. Qed.

Lemma Qpow10_add (a b : Z) : (10 # 1) ^ (a + b) == (10 # 1) ^ a * (10 # 1) ^ b.
Proof. apply Qpower_plus, ten_nonzero. Qed.

Lemma inject_pow10 (k : Z) : (0 <= k)%Z -> inject_Z (10 ^ k) == (10 # 1) ^ k.
Proof. intros Hk. apply (Zpower_Qpower 10 k Hk). Qed.

Lemma Qpow10_split (a e : Z) : (10 # 1) ^ (a - e) * (10 # 1) ^ e == (10 # 1) ^ a.
Proof. rewrite <- Qpow10_add. replace (a - e + e)%Z with a by lia. reflexivity. Qed.

Lemma value_mk (c e : Z) :
  Decimal.value (Decimal.mk c e) = inject_Z c * (10 # 1) ^ e.
Proof. reflexivity. Qed.

(** Padding a coefficient with [k] zeros and lowering the exponent by [k]
    keeps the value. *)
Lemma value_pad (c e k : Z) :
  (0 <= k)%Z ->
  Decimal.value (Decimal.mk (c * 10 ^ k) (e - k)) == Decimal.value (Decimal.mk c e).
Proof.
  intros Hk. rewrite !value_mk, inject_Z_mult, inject_pow10 by lia.
  rewrite <- (Qpow10_split e (e - k)).
  replace (e - (e - k))%Z with k by lia. ring.
Qed.

Lemma value_neg (d : Decimal.t) : Decimal.value (Decimal.neg d) == - Decimal.value d.
Proof. unfold Decimal.neg. rewrite value_mk. unfold Decimal.value. rewrite inject_Z_opp. ring. Qed.

Lemma value_product (a b : Decimal.t) :
  Decimal.value (Decimal.mk (Decimal.coef a * Decimal.coef b) (Decimal.exp a + Decimal.exp b))
  == Decimal.value a * Decimal.value b.
Proof.
  rewrite value_mk. unfold Decimal.value. rewrite inject_Z_mult, Qpow10_add. ring.
Qed.

Lemma value_aligned_sum (a b : Decimal.t) (e : Z) :
  (e <= Decimal.exp a)%Z -> (e <= Decimal.exp b)%Z ->
  Decimal.value
    (Decimal.mk (Decimal.coef a * 10 ^ (Decimal.exp a - e)
                 + Decimal.coef b * 10 ^ (Decimal.exp b - e)) e)
  == Decimal.value a + Decimal.value b.
Proof.
  intros Ha Hb. rewrite value_mk. unfold Decimal.value.
  rewrite inject_Z_plus, !inject_Z_mult, !inject_pow10 by lia.
  rewrite <- (Qpow10_split (Decimal.exp a) e), <- (Qpow10_split (Decimal.exp b) e).
  ring.
Qed.

Lemma value_add_exact (a b : Decimal.t) :
  Decimal.value (Decimal.add_exact a b) == Decimal.value a + Decimal.value b.
Proof. unfold Decimal.add_exact. apply value_aligned_sum; lia. Qed.

Lemma value_zero (e : Z) : Decimal.value (Decimal.mk 0 e) == 0.
Proof. rewrite value_mk. ring. Qed.

Lemma value_is_zero (d : Decimal.t) :
  Decimal.is_zero d = true -> Decimal.value d == 0.
Proof.
  unfold Decimal.is_zero. intros H%Z.eqb_eq. unfold Decimal.value. rewrite H. ring.
Qed.

Lemma value_rescale (e : Z) (d : Decimal.t) :
  (e <= Decimal.exp d)%Z -> Decimal.value (Decimal.rescale e d) == Decimal.value d.
Proof.
  intros He. unfold Decimal.rescale.
  replace e with (Decimal.exp d - (Decimal.exp d - e))%Z at 2 by lia.
  rewrite value_pad by lia. destruct d; reflexivity.
Qed.

(** [a * b] is exact when the product of the coefficients has at most 28
    digits. *)
Lemma mul_exact (a b : Decimal.t) :
  (Z.abs (Decimal.coef a * Decimal.coef b) < 10 ^ 28)%Z ->
  Decimal.mul a b
  = Decimal.mk (Decimal.coef a * Decimal.coef b) (Decimal.exp a + Decimal.exp b).
Proof. intros Hc. unfold Decimal.mul. by apply fix_small. Qed.

Lemma abs_pad_le (c j k : Z) :
  (0 <= j <= k)%Z -> (Z.abs (c * 10 ^ j) <= Z.abs c * 10 ^ k)%Z.
Proof.
  intros Hjk. rewrite Z.abs_mul, (Z.abs_eq (10 ^ j)) by (apply Z.pow_nonneg; lia).
  apply Z.mul_le_mono_nonneg_l; [lia|]. apply Z.pow_le_mono_r; lia.
Qed.

(** [a + b] is exact when the operands, aligned at the smaller exponent,
    add up to at most 28 digits. *)
Lemma add_value (a b : Decimal.t) :
  (Z.abs (Decimal.coef a) * 10 ^ (Decimal.exp a - Z.min (Decimal.exp a) (Decimal.exp b))
   + Z.abs (Decimal.coef b) * 10 ^ (Decimal.exp b - Z.min (Decimal.exp a) (Decimal.exp b))
   < 10 ^ 28)%Z ->
  Decimal.value (Decimal.add a b) == Decimal.value a + Decimal.value b.
Proof.
  set (e := Z.min (Decimal.exp a) (Decimal.exp b)). intros Hc.
  assert (He : (e <= Decimal.exp a /\ e <= Decimal.exp b)%Z) by (unfold e; lia).
  assert (Hpa : (0 <= Z.abs (Decimal.coef a) * 10 ^ (Decimal.exp a - e))%Z)
    by (apply Z.mul_nonneg_nonneg; [lia|apply Z.pow_nonneg; lia]).
  assert (Hpb : (0 <= Z.abs (Decimal.coef b) * 10 ^ (Decimal.exp b - e))%Z)
    by (apply Z.mul_nonneg_nonneg; [lia|apply Z.pow_nonneg; lia]).
  unfold Decimal.add. fold e. unfold Decimal.prec.
  destruct (Decimal.is_zero a) eqn:Za; destruct (Decimal.is_zero b) eqn:Zb; simpl.
  - rewrite fix_small by (simpl; lia).
    rewrite value_zero, (value_is_zero a Za), (value_is_zero b Zb). ring.
  - rewrite fix_small.
    + rewrite value_rescale by lia. rewrite (value_is_zero a Za). ring.
    + simpl.
      pose proof (abs_pad_le (Decimal.coef b)
                    (Decimal.exp b - Z.max e (Decimal.exp b - 28 - 1))
                    (Decimal.exp b - e) ltac:(lia)).
      lia.
  - rewrite fix_small.
    + rewrite value_rescale by lia. rewrite (value_is_zero b Zb). ring.
    + simpl.
      pose proof (abs_pad_le (Decimal.coef a)
                    (Decimal.exp a - Z.max e (Decimal.exp a - 28 - 1))
                    (Decimal.exp a - e) ltac:(lia)).
      lia.
  - rewrite fix_small.
    + apply value_aligned_sum; lia.
    + simpl.
      pose proof (abs_pad_le (Decimal.coef a) (Decimal.exp a - e) (Decimal.exp a - e)
                    ltac:(lia)).
      pose proof (abs_pad_le (Decimal.coef b) (Decimal.exp b - e) (Decimal.exp b - e)
                    ltac:(lia)).
      pose proof (Z.abs_triangle (Decimal.coef a * 10 ^ (Decimal.exp a - e))
                                 (Decimal.coef b * 10 ^ (Decimal.exp b - e))).
      lia.
Qed.

Lemma sub_value (a b : Decimal.t) :
  (Z.abs (Decimal.coef a) * 10 ^ (Decimal.exp a - Z.min (Decimal.exp a) (Decimal.exp b))
   + Z.abs (Decimal.coef b) * 10 ^ (Decimal.exp b - Z.min (Decimal.exp a) (Decimal.exp b))
   < 10 ^ 28)%Z ->
  Decimal.value (Decimal.sub a b) == Decimal.value a - Decimal.value b.
Proof.
  intros Hc. unfold Decimal.sub. rewrite add_value.
  - rewrite value_neg. ring.
  - simpl. rewrite Z.abs_opp. exact Hc.
Qed.

(** The zero-stripping loop of an exact quotient. *)
Lemma strip_pad (m f : nat) (c e : Z) :
  Decimal.strip (m + f) (c * 10 ^ Z.of_nat m)%Z e
  = Decimal.strip f c (e + Z.of_nat m)%Z.
Proof.
  revert e. induction m as [|m IH]; intros e.
  - simpl. rewrite Z.mul_1_r, Z.add_0_r. reflexivity.
  - rewrite Nat2Z.inj_succ, Z.pow_succ_r by lia.
    replace (c * (10 * 10 ^ Z.of_nat m))%Z with (c * 10 ^ Z.of_nat m * 10)%Z by ring.
    cbn [Nat.add Decimal.strip].
    rewrite Z.mod_mul by lia. simpl (0 =? 0)%Z. cbv iota.
    rewrite Z.div_mul by lia. rewrite IH. f_equal. lia.
Qed.

Lemma strip_spec (fuel : nat) (c e : Z) :
  (0 <= c)%Z ->
  (0 <= (Decimal.strip fuel c e).1 <= c
   /\ e <= (Decimal.strip fuel c e).2 <= e + Z.of_nat fuel
   /\ c = (Decimal.strip fuel c e).1 * 10 ^ ((Decimal.strip fuel c e).2 - e))%Z.
Proof.
  revert c e. induction fuel as [|fuel IH]; intros c e Hc.
  - simpl. rewrite Z.sub_diag. simpl. lia.
  - cbn [Decimal.strip]. destruct (Z.eqb_spec (c mod 10) 0) as [Hm|Hm].
    + assert (Hc10 : (0 <= c / 10)%Z) by (apply Z.div_pos; lia).
      destruct (IH (c / 10)%Z (e + 1)%Z Hc10) as (Hb & He & Hv).
      assert (Hle : (c / 10 <= c)%Z) by (Z.to_euclidean_division_equations; lia).
      split; [lia|]. split; [lia|].
      rewrite (pow10_succ ((Decimal.strip fuel (c / 10) (e + 1)).2 - e)) by lia.
      replace ((Decimal.strip fuel (c / 10) (e + 1)).2 - e - 1)%Z
        with ((Decimal.strip fuel (c / 10) (e + 1)).2 - (e + 1))%Z by lia.
      rewrite Z.mul_assoc, (Z.mul_comm _ 10), <- Z.mul_assoc, <- Hv.
      Z.to_euclidean_division_equations; lia.
    + simpl. rewrite Z.sub_diag. simpl. lia.
Qed.

Lemma div_eucl_div_mod (a b : Z) : Z.div_eucl a b = ((a / b)%Z, (a mod b)%Z).
Proof. unfold Z.div, Z.modulo. by destruct (Z.div_eucl a b). Qed.

(** [a / 100] is exact for a coefficient of at most 26 digits: the
    quotient keeps the value, and its exponent falls by at most two. *)
Lemma div_100_exact (a : Decimal.t) :
  (Z.abs (Decimal.coef a) < 10 ^ 26)%Z ->
  exists q,
    Decimal.div a (Decimal.of_int 100) = Some q
    /\ Decimal.value q == Decimal.value a * (1 # 100)
    /\ (Decimal.exp a - 2 <= Decimal.exp q <= Decimal.exp a)%Z
    /\ (Z.abs (Decimal.coef q) * 10 ^ (Decimal.exp q - (Decimal.exp a - 2))
        = Z.abs (Decimal.coef a))%Z.
Proof.
  intros Hc. unfold Decimal.div.
  change (Decimal.is_zero (Decimal.of_int 100)) with false. cbv iota.
  destruct (Decimal.is_zero a) eqn:Za.
  - exists (Decimal.mk 0 (Decimal.exp a)).
    change (Decimal.exp (Decimal.of_int 100)) with 0%Z. rewrite Z.sub_0_r.
    rewrite fix_small by (simpl; lia).
    split; [reflexivity|]. rewrite value_zero, (value_is_zero a Za).
    unfold Decimal.is_zero in Za. apply Z.eqb_eq in Za. simpl. rewrite Za.
    split; [ring|]. split; [lia|]. reflexivity.
  - unfold Decimal.is_zero in Za. apply Z.eqb_neq in Za.
    change (Decimal.coef (Decimal.of_int 100)) with 100%Z.
    change (Decimal.exp (Decimal.of_int 100)) with 0%Z.
    change (Decimal.ndigits 100) with 3%Z. unfold Decimal.prec.
    set (n := Z.abs (Decimal.coef a)).
    set (la := Decimal.ndigits (Decimal.coef a)).
    assert (Hla : (1 <= la <= 26)%Z).
    { split; [apply ndigits_pos_fuel | apply ndigits_le; [lia|exact Hc]]. }
    set (shift := (3 - la + 28 + 1)%Z).
    assert (Hs : (6 <= shift)%Z) by (unfold shift; lia).
    destruct (Z.leb_spec 0 shift) as [_|]; [|lia].
    change (Z.abs 100) with 100%Z.
    rewrite div_eucl_div_mod.
    assert (Hn : (n * 10 ^ shift = n * 10 ^ (shift - 2) * 100)%Z).
    { replace shift with ((shift - 2) + 2)%Z at 1 by lia.
      rewrite Z.pow_add_r by lia. change (10 ^ 2)%Z with 100%Z. ring. }
    rewrite Hn, Z.div_mul, Z.mod_mul by lia. simpl (0 =? 0)%Z. cbv iota.
    replace (Decimal.exp a - 0 - (Decimal.exp a - 0 - shift))%Z with shift by lia.
    replace (Z.to_nat shift) with (Z.to_nat (shift - 2) + 2)%nat by lia.
    set (m := Z.to_nat (shift - 2)).
    replace (shift - 2)%Z with (Z.of_nat m) by (unfold m; lia).
    rewrite strip_pad.
    replace (Decimal.exp a - 0 - shift + Z.of_nat m)%Z
      with (Decimal.exp a - 2)%Z by (unfold m; lia).
    assert (Hn0 : (0 <= n)%Z) by (unfold n; lia).
    pose proof (strip_spec 2 n (Decimal.exp a - 2)%Z Hn0) as (Hb & He & Hv).
    destruct (Decimal.strip 2 n (Decimal.exp a - 2)) as [q' e'] eqn:Es.
    simpl in Hb, He, Hv.
    change (Z.sgn 100) with 1%Z. rewrite Z.mul_1_r.
    assert (Hq : (Z.abs (Z.sgn (Decimal.coef a) * q') = q')%Z).
    { destruct (Z.sgn_spec (Decimal.coef a)) as [[_ ->]|[[? _]|[_ ->]]]; lia. }
    eexists. split; [reflexivity|].
    rewrite fix_small by (simpl; lia).
    split; [|split].
    + rewrite value_mk. unfold Decimal.value.
      assert (Hca : Decimal.coef a = (Z.sgn (Decimal.coef a) * n)%Z).
      { unfold n. destruct (Z.sgn_spec (Decimal.coef a)) as [[? ->]|[[? ->]|[? ->]]]; lia. }
      set (sg := Z.sgn (Decimal.coef a)) in *. rewrite Hca, Hv.
      rewrite !inject_Z_mult, inject_pow10 by lia.
      rewrite <- (Qpow10_split (Decimal.exp a) (Decimal.exp a - 2)).
      replace (Decimal.exp a - (Decimal.exp a - 2))%Z with 2%Z by lia.
      rewrite <- (Qpow10_split e' (Decimal.exp a - 2)).
      change ((10 # 1) ^ 2) with (100 # 1). field.
    + simpl. lia.
    + simpl. rewrite Hq. lia.
Qed.

(** Bounds on coefficients written with a number of decimal places. *)
Lemma scaled_mul (a b x y m n : Z) :
  (0 <= x)%Z -> (0 <= y)%Z ->
  (Z.abs a * 10 ^ x < 10 ^ m)%Z -> (Z.abs b * 10 ^ y < 10 ^ n)%Z ->
  (0 <= m)%Z -> (0 <= n)%Z ->
  (Z.abs (a * b) * 10 ^ (x + y) < 10 ^ (m + n))%Z.
Proof.
  intros Hx Hy Ha Hb Hm Hn. rewrite Z.abs_mul, !Z.pow_add_r by lia.
  pose proof (pow10_pos x Hx). pose proof (pow10_pos y Hy).
  replace (Z.abs a * Z.abs b * (10 ^ x * 10 ^ y))%Z
    with ((Z.abs a * 10 ^ x) * (Z.abs b * 10 ^ y))%Z by ring.
  apply Z.mul_lt_mono_nonneg; nia.
Qed.

Lemma scaled_weaken (a x y B : Z) :
  (0 <= y <= x)%Z -> (Z.abs a * 10 ^ x < B)%Z -> (Z.abs a * 10 ^ y < B)%Z.
Proof.
  intros Hxy Ha.
  assert (10 ^ y <= 10 ^ x)%Z by (apply Z.pow_le_mono_r; lia).
  nia.
Qed.

Lemma scaled_shift (a x k m : Z) :
  (0 <= x)%Z -> (0 <= k)%Z -> (0 <= m)%Z ->
  (Z.abs a * 10 ^ x < 10 ^ m)%Z -> (Z.abs a * 10 ^ (x + k) < 10 ^ (m + k))%Z.
Proof.
  intros Hx Hk Hm Ha. rewrite !Z.pow_add_r by lia.
  pose proof (pow10_pos k Hk). nia.
Qed.

Lemma scaled_bound (a x m M : Z) :
  (0 <= x)%Z -> (0 <= m <= M)%Z ->
  (Z.abs a * 10 ^ x < 10 ^ m)%Z -> (Z.abs a < 10 ^ M)%Z.
Proof.
  intros Hx Hm Ha. pose proof (pow10_pos x Hx).
  assert (10 ^ m <= 10 ^ M)%Z by (apply Z.pow_le_mono_r; lia).
  nia.
Qed.

(** The line total of [InvoiceItem.save] on operands that fit their
    fields: every step is exact. *)
Lemma line_total_exact (u q d : Decimal.t) :
  Decimal.fits 10 2 u -> Decimal.fits 10 2 q -> Decimal.fits 5 2 d ->
  exists disc,
    truediv (Decimal.mul (Decimal.mul u q) d) (Decimal.of_int 100) = Ok disc
    /\ Decimal.value (Decimal.sub (Decimal.mul u q) disc)
       == Decimal.value u * Decimal.value q
          - Decimal.value u * Decimal.value q * Decimal.value d / 100.
Proof.
  intros [Heu Hu] [Heq Hq] [Hed Hd].
  assert (H1 := scaled_mul (Decimal.coef u) (Decimal.coef q)
                  (Decimal.exp u + 2) (Decimal.exp q + 2) 10 10
                  ltac:(lia) ltac:(lia) Hu Hq ltac:(lia) ltac:(lia)).
  assert (H2 := scaled_mul (Decimal.coef u * Decimal.coef q) (Decimal.coef d)
                  (Decimal.exp u + 2 + (Decimal.exp q + 2)) (Decimal.exp d + 2)
                  (10 + 10) 5
                  ltac:(lia) ltac:(lia) H1 Hd ltac:(lia) ltac:(lia)).
  assert (Hm1 : Decimal.mul u q
                = Decimal.mk (Decimal.coef u * Decimal.coef q)
                             (Decimal.exp u + Decimal.exp q)).
  { apply mul_exact.
    apply (scaled_bound _ (Decimal.exp u + 2 + (Decimal.exp q + 2)) (10 + 10) 28);
      [lia|lia|exact H1]. }
  rewrite Hm1.
  set (m1 := Decimal.mk (Decimal.coef u * Decimal.coef q) (Decimal.exp u + Decimal.exp q)) in *.
  assert (Hm2 : Decimal.mul m1 d
                = Decimal.mk (Decimal.coef m1 * Decimal.coef d)
                             (Decimal.exp m1 + Decimal.exp d)).
  { apply mul_exact.
    apply (scaled_bound _ (Decimal.exp u + 2 + (Decimal.exp q + 2) + (Decimal.exp d + 2))
             (10 + 10 + 5) 28); [lia|lia|exact H2]. }
  rewrite Hm2.
  set (m2 := Decimal.mk (Decimal.coef m1 * Decimal.coef d) (Decimal.exp m1 + Decimal.exp d)) in *.
  assert (Hc2 : (Z.abs (Decimal.coef m2) < 10 ^ 26)%Z).
  { apply (scaled_bound _ (Decimal.exp u + 2 + (Decimal.exp q + 2) + (Decimal.exp d + 2))
             (10 + 10 + 5) 26); [lia|lia|exact H2]. }
  destruct (div_100_exact m2 Hc2) as (disc & Hdiv & Hval & Hexp & Hcoef).
  exists disc. unfold truediv. rewrite Hdiv. split; [reflexivity|].
  rewrite sub_value.
  - rewrite Hval. unfold m2, m1. rewrite !value_product. field.
  - simpl Decimal.coef in *. simpl Decimal.exp in *.
    set (e1 := (Decimal.exp u + Decimal.exp q)%Z) in *.
    set (c1 := (Decimal.coef u * Decimal.coef q)%Z) in *.
    set (e := Z.min e1 (Decimal.exp disc)).
    assert (He : (-8 <= e /\ e <= e1 /\ e <= Decimal.exp disc)%Z) by (unfold e, e1; lia).
    assert (HA : (Z.abs c1 * 10 ^ (e1 - e) < 10 ^ 24)%Z).
    { replace (Decimal.exp u + 2 + (Decimal.exp q + 2))%Z with (e1 + 4)%Z in H1
        by (unfold e1; lia).
      pose proof (scaled_shift c1 (e1 + 4) 4 (10 + 10) ltac:(unfold e1; lia)
                    ltac:(lia) ltac:(lia) H1) as Hs.
      apply (scaled_weaken c1 (e1 + 4 + 4)); [lia|exact Hs]. }
    assert (HB : (Z.abs (Decimal.coef disc) * 10 ^ (Decimal.exp disc - e) < 10 ^ 25)%Z).
    { apply (scaled_weaken _ (Decimal.exp disc + 8)); [lia|].
      replace (Decimal.exp disc + 8)%Z
        with ((Decimal.exp disc - (e1 + Decimal.exp d - 2)) + (e1 + Decimal.exp d + 6))%Z
        by lia.
      rewrite Z.pow_add_r, Z.mul_assoc, Hcoef by (unfold e1 in *; lia).
      replace (e1 + Decimal.exp d + 6)%Z
        with (Decimal.exp u + 2 + (Decimal.exp q + 2) + (Decimal.exp d + 2))%Z
        by (unfold e1; lia).
      exact H2. }
    change (10 ^ 24)%Z with 1000000000000000000000000%Z in HA.
    change (10 ^ 25)%Z with 10000000000000000000000000%Z in HB.
    change (10 ^ 28)%Z with 10000000000000000000000000000%Z. lia.
Qed.

(** The model on the quotients and products Python prints. *)
Example decimal_third :
  Decimal.div (Decimal.mk 100 (-2)) (Decimal.mk 300 (-2))
  = Some (Decimal.mk 3333333333333333333333333333 (-28)).
Proof. vm_compute. reflexivity. Qed.

Example decimal_two_thirds :
  Decimal.div (Decimal.mk 2 0) (Decimal.mk 3 0)
  = Some (Decimal.mk 6666666666666666666666666667 (-28)).
Proof. vm_compute. reflexivity. Qed.

Example decimal_exact_quotients :
  Decimal.div (Decimal.mk 10 0) (Decimal.mk 4 0) = Some (Decimal.mk 25 (-1))
  /\ Decimal.div (Decimal.mk 100 (-2)) (Decimal.mk 8 0) = Some (Decimal.mk 125 (-3))
  /\ Decimal.div (Decimal.mk (-7) 0) (Decimal.mk 2 0) = Some (Decimal.mk (-35) (-1))
  /\ Decimal.div (Decimal.mk 375000000 (-6)) (Decimal.of_int 100)
     = Some (Decimal.mk 3750000 (-6)).
Proof. vm_compute. repeat split. Qed.

Example decimal_mul_rounds :
  Decimal.mul (Decimal.mk 123456789012345678901234567 (-26))
              (Decimal.mk 123456789012345678901234567 (-26))
  = Decimal.mk 1524157875323883675049535134 (-27).
Proof. vm_compute. reflexivity. Qed.

Example decimal_zero_operands :
  Decimal.sub (Decimal.mk 5 0) (Decimal.mk 0 (-2)) = Decimal.mk 500 (-2)
  /\ Decimal.sub (Decimal.mk 15 (-1)) (Decimal.mk 0 (-40)) = Decimal.mk (15 * 10 ^ 26) (-27).
Proof. vm_compute. split; reflexivity. Qed.

Example ndigits_samples :
  Decimal.ndigits 0 = 1%Z /\ Decimal.ndigits 9 = 1%Z /\ Decimal.ndigits (-10) = 2%Z
  /\ Decimal.ndigits 999 = 3%Z /\ Decimal.ndigits (10 ^ 28) = 29%Z.
Proof. vm_compute. repeat split. Qed.

(** A quotient exists exactly for a divisor that is not zero. *)
Lemma div_some (a b : Decimal.t) :
  Decimal.is_zero b = false -> exists q, Decimal.div a b = Some q.
Proof.
  intros Hb. unfold Decimal.div. rewrite Hb.
  destruct (Decimal.is_zero a); [eauto|].
  destruct (if (0 <=? _)%Z then _ else _) as [q r].
  destruct (if (r =? 0)%Z then _ else _) as [q' e']. eauto.
Qed.

Lemma div_none (a b : Decimal.t) :
  Decimal.div a b = None <-> Decimal.is_zero b = true.
Proof.
  split.
  - intros Hn. destruct (Decimal.is_zero b) eqn:Hb; [reflexivity|].
    destruct (div_some a b Hb) as [q Hq]. congruence.
  - intros Hb. unfold Decimal.div. by rewrite Hb.
Qed.

(** ** C8: the line total of an invoice item *)

Local Close Scope Q_scope.

Lemma unique_clash_InvoiceItem (k : Z) (self : InvoiceItem) (t : gmap Z InvoiceItem) :
  unique_clash k self t = false.
Proof.
  unfold unique_clash. induction (map_to_list t) as [|kr l IH]; [reflexivity|].
  cbn [existsb]. rewrite IH. simpl. rewrite andb_false_r. reflexivity.
Qed.

Lemma truediv_100_ok (a : Decimal.t) :
  exists disc, truediv a (Decimal.of_int 100) = Ok disc.
Proof.
  unfold truediv.
  destruct (div_some a (Decimal.of_int 100) eq_refl) as [q Hq].
  rewrite Hq. eauto.
Qed.

(** Rounding [n / 10 ^ k] half to even moves it by at most half a unit. *)
Lemma round_half_even_bounds (n k : Z) :
  0 <= n -> 0 < k ->
  let q := n / 10 ^ k in
  let r := n mod 10 ^ k in
  let c := if (10 ^ k <? 2 * r) || ((2 * r =? 10 ^ k) && Z.odd q)
           then q + 1 else q in
  0 <= c /\ - 10 ^ k <= 2 * (c * 10 ^ k - n) <= 10 ^ k.
Proof.
  intros Hn Hk q r c.
  pose proof (pow10_pos k ltac:(lia)) as Hp.
  pose proof (Z.div_mod n (10 ^ k) ltac:(lia)) as Hdm.
  pose proof (Z.mod_pos_bound n (10 ^ k) Hp) as Hr.
  assert (Hq : 0 <= q) by (apply Z.div_pos; lia).
  fold q r in Hdm, Hr. unfold c.
  destruct (Z.ltb_spec (10 ^ k) (2 * r)) as [Hlt|Hge]; cbn [orb].
  - split; [lia|]. nia.
  - destruct (Z.eqb_spec (2 * r) (10 ^ k)) as [Heq|Hne]; cbn [andb].
    + destruct (Z.odd q); (split; [lia|]); nia.
    + split; [lia|]. nia.
Qed.

(** What [quantize] returns: the exponent asked for, a coefficient within
    the precision, the sign of the operand, and the operand's coefficient
    padded or rounded. *)
Lemma quantize_some (p e : Z) (d s : Decimal.t) :
  1 <= p ->
  Decimal.quantize p e d = Some s ->
  Decimal.exp s = e
  /\ Z.abs (Decimal.coef s) < 10 ^ p
  /\ exists c,
       0 <= c /\ Decimal.coef s = Z.sgn (Decimal.coef d) * c
       /\ (e <= Decimal.exp d ->
           c = Z.abs (Decimal.coef d) * 10 ^ (Decimal.exp d - e))
       /\ (Decimal.exp d < e ->
           - 10 ^ (e - Decimal.exp d)
           <= 2 * (c * 10 ^ (e - Decimal.exp d) - Z.abs (Decimal.coef d))
           <= 10 ^ (e - Decimal.exp d)).
Proof.
  intros Hp. unfold Decimal.quantize, Decimal.is_zero.
  pose proof (pow10_pos p ltac:(lia)) as Hpp.
  destruct (Z.eqb_spec (Decimal.coef d) 0) as [Hz|Hz].
  { intros [= <-]. cbn [Decimal.exp Decimal.coef]. rewrite Hz.
    split; [reflexivity|]. split; [simpl; lia|].
    exists 0. simpl. repeat split; try lia. }
  destruct (_ <? _); [discriminate|].
  set (c := if e <=? Decimal.exp d then _ else _).
  destruct (Z.ltb_spec p (Decimal.ndigits c)) as [|Hnd]; [discriminate|].
  intros [= <-]. cbn [Decimal.exp Decimal.coef].
  assert (Hc : 0 <= c
               /\ (e <= Decimal.exp d ->
                   c = Z.abs (Decimal.coef d) * 10 ^ (Decimal.exp d - e))
               /\ (Decimal.exp d < e ->
                   - 10 ^ (e - Decimal.exp d)
                   <= 2 * (c * 10 ^ (e - Decimal.exp d) - Z.abs (Decimal.coef d))
                   <= 10 ^ (e - Decimal.exp d))).
  { unfold c. destruct (Z.leb_spec e (Decimal.exp d)) as [Hle|Hgt].
    - pose proof (pow10_pos (Decimal.exp d - e) ltac:(lia)).
      split; [nia|]. split; [reflexivity|lia].
    - pose proof (round_half_even_bounds (Z.abs (Decimal.coef d)) (e - Decimal.exp d)
                    ltac:(lia) ltac:(lia)) as [H0 Hb].
      split; [exact H0|]. split; [lia|]. intros _. exact Hb. }
  destruct Hc as (Hc0 & Hpad & Hround).
  split; [reflexivity|]. split.
  - assert (Habs : Z.abs (Z.sgn (Decimal.coef d) * c) = c).
    { destruct (Z.sgn_spec (Decimal.coef d)) as [[_ ->]|[[? _]|[_ ->]]]; lia. }
    rewrite Habs. destruct (Z.eq_dec c 0) as [->|Hc]; [lia|].
    pose proof (ndigits_spec c Hc) as [_ Hlt].
    eapply Z.lt_le_trans; [|apply (Z.pow_le_mono_r 10 (Decimal.ndigits c) p); lia].
    lia.
  - exists c. auto.
Qed.

Local Open Scope Q_scope.

Lemma Qpow10_pos (e : Z) : 0 < (10 # 1) ^ e.
Proof. apply Qpower_0_lt. reflexivity. Qed.

(** [quantize] moves a value by at most half a unit of the last place. *)
Lemma quantize_value (p e : Z) (d s : Decimal.t) :
  (1 <= p)%Z ->
  Decimal.quantize p e d = Some s ->
  Decimal.value d - (1 # 2) * (10 # 1) ^ e <= Decimal.value s
  /\ Decimal.value s <= Decimal.value d + (1 # 2) * (10 # 1) ^ e.
Proof.
  intros Hp Hq.
  destruct (quantize_some p e d s Hp Hq) as (He & _ & c & Hc0 & Hcs & Hpad & Hround).
  pose proof (Qpow10_pos e) as Hpe.
  destruct (Z.le_gt_cases e (Decimal.exp d)) as [Hle|Hgt].
  - assert (Hv : Decimal.value s == Decimal.value d).
    { unfold Decimal.value at 1. rewrite Hcs, He, (Hpad Hle).
      replace (Z.sgn (Decimal.coef d)
               * (Z.abs (Decimal.coef d) * 10 ^ (Decimal.exp d - e)))%Z
        with (Decimal.coef d * 10 ^ (Decimal.exp d - e))%Z.
      2:{ rewrite Z.mul_assoc. f_equal. rewrite Z.mul_comm. symmetry.
          apply Z.abs_sgn. }
      replace e with (Decimal.exp d - (Decimal.exp d - e))%Z at 2 by lia.
      rewrite <- value_mk, value_pad by lia. destruct d; reflexivity. }
    rewrite Hv. split; lra.
  - specialize (Hround ltac:(lia)).
    set (k := (e - Decimal.exp d)%Z) in *.
    pose proof (pow10_pos k ltac:(lia)) as Hk.
    set (n := Z.abs (Decimal.coef d)) in *.
    assert (Hd : Decimal.value d
                 == inject_Z (Z.sgn (Decimal.coef d)) * (inject_Z n / inject_Z (10 ^ k))
                    * (10 # 1) ^ e).
    { unfold Decimal.value.
      replace (Decimal.coef d) with (Z.sgn (Decimal.coef d) * n)%Z at 1
        by (unfold n; rewrite Z.mul_comm; apply Z.abs_sgn).
      rewrite inject_Z_mult, (inject_pow10 k) by lia.
      replace (Decimal.exp d) with (e - k)%Z at 1 by (unfold k; lia).
      unfold Zminus. rewrite Qpow10_add, Qpower_opp.
      field. pose proof (Qpow10_pos k). lra. }
    assert (Hs : Decimal.value s
                 == inject_Z (Z.sgn (Decimal.coef d)) * inject_Z c * (10 # 1) ^ e).
    { unfold Decimal.value. rewrite Hcs, He, inject_Z_mult. reflexivity. }
    assert (HP : 0 < inject_Z (10 ^ k)).
    { change 0 with (inject_Z 0). rewrite <- Zlt_Qlt. exact Hk. }
    assert (Hlo : - inject_Z (10 ^ k)
                  <= 2 * (inject_Z c * inject_Z (10 ^ k) - inject_Z n)).
    { rewrite <- inject_Z_mult, <- inject_Z_opp.
      change 2 with (inject_Z 2).
      unfold Qminus. rewrite <- inject_Z_opp, <- inject_Z_plus, <- inject_Z_mult.
      rewrite <- Zle_Qle. lia. }
    assert (Hhi : 2 * (inject_Z c * inject_Z (10 ^ k) - inject_Z n)
                  <= inject_Z (10 ^ k)).
    { rewrite <- inject_Z_mult. change 2 with (inject_Z 2).
      unfold Qminus. rewrite <- inject_Z_opp, <- inject_Z_plus, <- inject_Z_mult.
      rewrite <- Zle_Qle. lia. }
    set (P := inject_Z (10 ^ k)) in *.
    set (x := inject_Z n / P).
    assert (Hx : inject_Z n == x * P) by (unfold x; field; lra).
    rewrite Hx in Hlo, Hhi.
    assert (Hx1 : -1 <= 2 * (inject_Z c - x)).
    { destruct (Qlt_le_dec (2 * (inject_Z c - x)) (-1)) as [Hc|Hc]; [|exact Hc].
      assert (0 < (-1 - 2 * (inject_Z c - x)) * P)
        by (apply Qmult_lt_0_compat; lra).
      lra. }
    assert (Hx2 : 2 * (inject_Z c - x) <= 1).
    { destruct (Qlt_le_dec 1 (2 * (inject_Z c - x))) as [Hc|Hc]; [|exact Hc].
      assert (0 < (2 * (inject_Z c - x) - 1) * P)
        by (apply Qmult_lt_0_compat; lra).
      lra. }
    rewrite Hd, Hs. fold x.
    set (t := (10 # 1) ^ e) in *.
    set (C := inject_Z c) in *.
    assert (Ht1 : 0 <= (2 * (C - x) + 1) * t)
      by (apply Qmult_le_0_compat; lra).
    assert (Ht2 : 0 <= (1 - 2 * (C - x)) * t)
      by (apply Qmult_le_0_compat; lra).
    destruct (Z.sgn_spec (Decimal.coef d)) as [[_ ->]|[[_ ->]|[_ ->]]];
      [change (inject_Z 1) with 1|change (inject_Z 0) with 0
       |change (inject_Z (- (1))) with (- (1))]; split; lra.
Qed.

(** To two places in particular: within half a cent. *)
Lemma quantize_cents (p : Z) (d s : Decimal.t) :
  (1 <= p)%Z ->
  Decimal.quantize p (-2) d = Some s ->
  Decimal.exp s = (-2)%Z
  /\ (Z.abs (Decimal.coef s) < 10 ^ p)%Z
  /\ Decimal.value d - (1 # 200) <= Decimal.value s
  /\ Decimal.value s <= Decimal.value d + (1 # 200).
Proof.
  intros Hp Hq.
  destruct (quantize_some p (-2) d s Hp Hq) as (He & Hc & _).
  destruct (quantize_value p (-2) d s Hp Hq) as [Hlo Hhi].
  assert (Hh : (1 # 2) * (10 # 1) ^ (-2) == 1 # 200) by reflexivity.
  rewrite Hh in Hlo, Hhi. auto.
Qed.

Local Close Scope Q_scope.

Lemma DecimalField_get_db_prep_save_run (md dp : Z) (v : Decimal.t) (w : World) :
  DecimalField_get_db_prep_save md dp v w
  = match Decimal.quantize md (- dp) v with
    | Some x => (Ok x, w)
    | None => (Raise InvalidOperation, w)
    end.
Proof. unfold DecimalField_get_db_prep_save. by destruct (Decimal.quantize _ _ _). Qed.

(** A save of an invoice item that returns has adapted the four decimal
    columns and written the adapted row; the instance keeps its values. *)
Lemma InvoiceItem_base_save_ok (self self' : InvoiceItem) (w w' : World) :
  Model_save_columns InvoiceItem_get_db_prep_save self w = (Ok self', w') ->
  exists k q u d l,
    Decimal.quantize 10 (-2) (quantity self) = Some q
    /\ Decimal.quantize 10 (-2) (unit_price self) = Some u
    /\ Decimal.quantize 5 (-2) (discount_percentage self) = Some d
    /\ Decimal.quantize 12 (-2) (line_total self) = Some l
    /\ self' = set_pk (Some k) self
    /\ w' = set_objects
              (<[k := mkInvoiceItem (Some k) (InvoiceItem_invoice self) q u d l]>
                 (invoice_items w)) w
    /\ (InvoiceItem_pk self = Some k
        \/ (InvoiceItem_pk self = None /\ k = fresh (dom (invoice_items w)))).
Proof.
  unfold Model_save_columns, InvoiceItem_get_db_prep_save, bind, ret.
  rewrite DecimalField_get_db_prep_save_run. change (- (2)) with (-2).
  destruct (Decimal.quantize 10 (-2) (quantity self)) as [q|]; [|discriminate].
  rewrite DecimalField_get_db_prep_save_run. change (- (2)) with (-2).
  destruct (Decimal.quantize 10 (-2) (unit_price self)) as [u|]; [|discriminate].
  rewrite DecimalField_get_db_prep_save_run. change (- (2)) with (-2).
  destruct (Decimal.quantize 5 (-2) (discount_percentage self)) as [d|]; [|discriminate].
  rewrite DecimalField_get_db_prep_save_run. change (- (2)) with (-2).
  destruct (Decimal.quantize 12 (-2) (line_total self)) as [l|]; [|discriminate].
  unfold Model_save. rewrite unique_clash_InvoiceItem.
  cbn [pk set_pk objects set_objects InvoiceItem_Model InvoiceItem_pk
       InvoiceItem_invoice quantity unit_price discount_percentage line_total].
  intros [= <- <-].
  eexists _, q, u, d, l. repeat split; try reflexivity.
  destruct (InvoiceItem_pk self); [left|right]; auto.
Qed.

(** The adaptation runs before the database is reached: a line total
    that [quantize] refuses makes the save raise, and nothing is written. *)
Lemma InvoiceItem_base_save_overflow (self : InvoiceItem) (w : World) :
  Decimal.quantize 12 (-2) (line_total self) = None ->
  Model_save_columns InvoiceItem_get_db_prep_save self w
  = (Raise InvalidOperation, w).
Proof.
  intros Hl.
  unfold Model_save_columns, InvoiceItem_get_db_prep_save, bind, ret.
  rewrite DecimalField_get_db_prep_save_run. change (- (2)) with (-2).
  destruct (Decimal.quantize 10 (-2) (quantity self)); [|reflexivity].
  rewrite DecimalField_get_db_prep_save_run. change (- (2)) with (-2).
  destruct (Decimal.quantize 10 (-2) (unit_price self)); [|reflexivity].
  rewrite DecimalField_get_db_prep_save_run. change (- (2)) with (-2).
  destruct (Decimal.quantize 5 (-2) (discount_percentage self)); [|reflexivity].
  rewrite DecimalField_get_db_prep_save_run. change (- (2)) with (-2).
  rewrite Hl. reflexivity.
Qed.

Lemma InvoiceItem_save_run (self : InvoiceItem) (w : World) (disc : Decimal.t) :
  truediv (Decimal.mul (Decimal.mul (unit_price self) (quantity self))
                       (discount_percentage self))
          (Decimal.of_int 100) = Ok disc ->
  InvoiceItem_save self w
  = Model_save_columns InvoiceItem_get_db_prep_save
      (set_line_total
         (Decimal.sub (Decimal.mul (unit_price self) (quantity self)) disc) self) w.
Proof.
  intros Hdisc. unfold InvoiceItem_save, bind, lift. rewrite Hdisc. reflexivity.
Qed.

(** C8. [InvoiceItem.save] computes [unit_price * quantity] minus
    [unit_price * quantity * discount_percentage / 100] in decimal
    arithmetic, whatever line total the caller supplied, and hands it to
    the base save; when the three operands fit their fields no step rounds
    and this is the exact value of the expression.  After a save that
    returns, the instance holds this line total and the other fields as
    they were, while the row written holds the line total as the
    (12, 2) column adapts it: with two decimal places, at most twelve
    digits, and within half a cent of the computed one.  A computed line
    total that the column cannot hold makes the save raise and leaves the
    store as it is. *)
Theorem InvoiceItem_save_line_total (self : InvoiceItem) (w : World) :
  exists disc total,
    truediv (Decimal.mul (Decimal.mul (unit_price self) (quantity self))
                         (discount_percentage self))
            (Decimal.of_int 100) = Ok disc
    /\ total = Decimal.sub (Decimal.mul (unit_price self) (quantity self)) disc
    /\ InvoiceItem_save self w
       = Model_save_columns InvoiceItem_get_db_prep_save (set_line_total total self) w
    /\ (forall x, InvoiceItem_save (set_line_total x self) w = InvoiceItem_save self w)
    /\ (Decimal.fits 10 2 (unit_price self) ->
        Decimal.fits 10 2 (quantity self) ->
        Decimal.fits 5 2 (discount_percentage self) ->
        (Decimal.value total
         == Decimal.value (unit_price self) * Decimal.value (quantity self)
            - Decimal.value (unit_price self) * Decimal.value (quantity self)
              * Decimal.value (discount_percentage self) / 100)%Q)
    /\ (forall self' w',
          InvoiceItem_save self w = (Ok self', w') ->
          line_total self' = total
          /\ (unit_price self' = unit_price self /\ quantity self' = quantity self
              /\ discount_percentage self' = discount_percentage self)
          /\ exists k row,
               InvoiceItem_pk self' = Some k
               /\ invoice_items w' !! k = Some row
               /\ Decimal.quantize 12 (-2) total = Some (line_total row)
               /\ Decimal.exp (line_total row) = -2
               /\ Z.abs (Decimal.coef (line_total row)) < 10 ^ 12
               /\ (Decimal.value total - (1 # 200)
                   <= Decimal.value (line_total row))%Q
               /\ (Decimal.value (line_total row)
                   <= Decimal.value total + (1 # 200))%Q)
    /\ (Decimal.quantize 12 (-2) total = None ->
        InvoiceItem_save self w = (Raise InvalidOperation, w)).
Proof.
  destruct (truediv_100_ok
              (Decimal.mul (Decimal.mul (unit_price self) (quantity self))
                           (discount_percentage self))) as [disc Hdisc].
  exists disc, (Decimal.sub (Decimal.mul (unit_price self) (quantity self)) disc).
  pose proof (InvoiceItem_save_run self w disc Hdisc) as Hrun.
  split; [exact Hdisc|]. split; [reflexivity|]. split; [exact Hrun|].
  split; [|split; [|split]].
  - intros x. reflexivity.
  - intros Hu Hq Hd.
    destruct (line_total_exact _ _ _ Hu Hq Hd) as (disc' & Hdisc' & Hval).
    rewrite Hdisc in Hdisc'. injection Hdisc' as <-. exact Hval.
  - intros self' w' Hsave. rewrite Hrun in Hsave.
    apply InvoiceItem_base_save_ok in Hsave
      as (k & q & u & d & l & _ & _ & _ & Hl & -> & -> & _).
    cbn [line_total set_line_total] in Hl.
    destruct (quantize_cents 12 _ _ ltac:(lia) Hl) as (He & Hc & Hlo & Hhi).
    split; [reflexivity|]. split; [auto|].
    exists k, (mkInvoiceItem (Some k) (InvoiceItem_invoice self) q u d l).
    split; [reflexivity|]. split; [apply lookup_insert_eq|].
    cbn [line_total]. auto.
  - intros Hnone. rewrite Hrun. apply InvoiceItem_base_save_overflow. exact Hnone.
Qed.

Lemma InvoiceItem_save_line_total_witness :
  exists self' w' k row,
    InvoiceItem_save sample_item sample_world = (Ok self', w')
    /\ line_total self' = Decimal.mk 33750000 (-6)
    /\ (Decimal.value (line_total self') == 3375 # 100)%Q
    /\ InvoiceItem_pk self' = Some k
    /\ invoice_items w' !! k = Some row
    /\ line_total row = Decimal.mk 3375 (-2).
Proof.
  destruct (InvoiceItem_save_line_total sample_item sample_world)
    as (disc & total & Hd & Ht & _ & _ & Hv & Hok & _).
  vm_compute in Hd. injection Hd as <-.
  destruct (InvoiceItem_save sample_item sample_world) as [[self'|e] w'] eqn:E.
  2: { vm_compute in E. discriminate E. }
  destruct (Hok self' w' eq_refl) as (Hl & _ & k & row & Hk & Hrow & Hq & _).
  exists self', w', k, row.
  split; [reflexivity|]. split; [rewrite Hl, Ht; vm_compute; reflexivity|].
  split.
  - rewrite Hl, Hv.
    + vm_compute. reflexivity.
    + unfold Decimal.fits; cbn; lia.
    + unfold Decimal.fits; cbn; lia.
    + unfold Decimal.fits; cbn; lia.
  - split; [exact Hk|]. split; [exact Hrow|].
    assert (Htot : total = Decimal.mk 33750000 (-6))
      by (rewrite Ht; vm_compute; reflexivity).
    assert (Hq' : Decimal.quantize 12 (-2) (Decimal.mk 33750000 (-6))
                  = Some (Decimal.mk 3375 (-2))) by (vm_compute; reflexivity).
    rewrite Htot, Hq' in Hq. injection Hq as <-. reflexivity.
Defined.

(** The stored line total is not the value of the expression in general:
    0.07 times 0.08 at no discount is 0.0056, which the instance holds and
    the row stores as 0.01; and 99999999.99 times 200.00 is not stored at
    all, the save raises. *)
Lemma InvoiceItem_save_line_total_counterexample :
  (exists self' w' k row,
     InvoiceItem_save
       (mkInvoiceItem None 1 (Decimal.mk 8 (-2)) (Decimal.mk 7 (-2))
                      (Decimal.mk 0 (-2)) (Decimal.mk 0 (-2)))
       sample_world = (Ok self', w')
     /\ line_total self' = Decimal.mk 5600 (-6)
     /\ InvoiceItem_pk self' = Some k
     /\ invoice_items w' !! k = Some row
     /\ line_total row = Decimal.mk 1 (-2)
     /\ (Decimal.value (Decimal.mk 7 (-2)) * Decimal.value (Decimal.mk 8 (-2))
         - Decimal.value (Decimal.mk 7 (-2)) * Decimal.value (Decimal.mk 8 (-2))
           * Decimal.value (Decimal.mk 0 (-2)) / 100
         == 56 # 10000)%Q
     /\ (Decimal.value (line_total self') == 56 # 10000)%Q
     /\ (Decimal.value (line_total row) == 1 # 100)%Q)
  /\ Decimal.fits 10 2 (Decimal.mk 9999999999 (-2))
  /\ Decimal.fits 10 2 (Decimal.mk 20000 (-2))
  /\ InvoiceItem_save
       (mkInvoiceItem None 1 (Decimal.mk 20000 (-2)) (Decimal.mk 9999999999 (-2))
                      (Decimal.mk 0 (-2)) (Decimal.mk 0 (-2)))
       sample_world
     = (Raise InvalidOperation, sample_world).
Proof.
  split; [|split; [|split]].
  - eexists _, _, _, _. split; [vm_compute; reflexivity|].
    split; [reflexivity|]. split; [reflexivity|].
    split; [vm_compute; reflexivity|].
    split; [reflexivity|]. split; [|split]; vm_compute; reflexivity.
  - unfold Decimal.fits; cbn; lia.
  - unfold Decimal.fits; cbn; lia.
  - vm_compute. reflexivity.
Qed.

Local Open Scope Q_scope.

(** ** C9: the profit margin *)

(** C9. [Product.profit_margin] never raises: with a positive cost price
    the quotient exists and the result is
    [((selling_price - cost_price) / cost_price) * 100] in decimal
    arithmetic; with a zero cost price (and with any cost price that is not
    positive) the division is not reached and the result is the integer 0. *)
Theorem Product_profit_margin_spec (self : Product) :
  (Decimal.gt0 (cost_price self) = true ->
   exists q,
     Decimal.div (Decimal.sub (selling_price self) (cost_price self))
                 (cost_price self) = Some q
     /\ Product_profit_margin self
        = Ok (NDecimal (Decimal.mul q (Decimal.of_int 100))))
  /\ (Decimal.is_zero (cost_price self) = true ->
      Product_profit_margin self = Ok (NInt 0))
  /\ (Decimal.gt0 (cost_price self) = false ->
      Product_profit_margin self = Ok (NInt 0))
  /\ (exists v, Product_profit_margin self = Ok v).
Proof.
  unfold Product_profit_margin, truediv, Decimal.gt0, Decimal.is_zero.
  destruct (Z.ltb_spec 0 (Decimal.coef (cost_price self))) as [Hpos|Hle].
  - assert (Hnz : Decimal.is_zero (cost_price self) = false)
      by (unfold Decimal.is_zero; apply Z.eqb_neq; lia).
    destruct (div_some (Decimal.sub (selling_price self) (cost_price self))
                (cost_price self) Hnz) as [q Hq].
    rewrite Hq. repeat split; try discriminate; eauto.
    intros Hz%Z.eqb_eq. lia.
  - repeat split; try discriminate; eauto.
Qed.

Example sample_product_margin :
  Product_profit_margin sample_product
  = Ok (NDecimal (Decimal.mk 3333333333333333333333333333 (-26))).
Proof. vm_compute. reflexivity. Qed.

(** ** C1: the remaining amount of an invoice *)

Lemma value_fold_add_exact (xs : list Decimal.t) (x : Decimal.t) :
  Decimal.value (fold_left Decimal.add_exact xs x)
  == Decimal.value x + foldr Qplus 0 (Decimal.value <$> xs).
Proof.
  revert x. induction xs as [|y ys IH]; intros x.
  - simpl. ring.
  - rewrite fmap_cons. cbn [fold_left foldr]. rewrite IH, value_add_exact. ring.
Qed.

(** [Sum('amount') or Decimal('0.00')] denotes the sum of the amounts. *)
Lemma value_total_paid (xs : list Decimal.t) :
  Decimal.value (or_decimal (Sum_decimal xs) (Decimal.mk 0 (-2)))
  == foldr Qplus 0 (Decimal.value <$> xs).
Proof.
  destruct xs as [|x xs]; simpl; [apply value_zero|].
  destruct (Decimal.is_zero _) eqn:Hz.
  - rewrite value_zero. rewrite <- value_fold_add_exact.
    symmetry. by apply value_is_zero.
  - apply value_fold_add_exact.
Qed.

Lemma paid_of_rows (k : Z) (l : list (Z * Payment)) :
  foldr Qplus 0
    (Decimal.value
       <$> (amount
              <$> List.filter (fun r => (Payment_invoice r =? k)%Z)
                    ((fun kr : Z * Payment => set_pk (Some kr.1) kr.2) <$> l)))
  = foldr
      (uncurry (fun (_ : Z) p acc =>
         if (Payment_invoice p =? k)%Z then Decimal.value (amount p) + acc else acc))
      0 l.
Proof.
  induction l as [|[i p] l IH]; simpl in *; [reflexivity|].
  destruct (Payment_invoice p =? k)%Z; simpl; [f_equal|]; exact IH.
Qed.

Lemma paid_total_none (k : Z) (t : gmap Z Payment) :
  (forall i p, t !! i = Some p -> Payment_invoice p <> k) -> paid_total k t = 0.
Proof.
  intros Hno. unfold paid_total. rewrite map_fold_foldr.
  assert (Hl : forall i p, (i, p) ∈ map_to_list t -> Payment_invoice p <> k)
    by (intros i p Hin; apply (Hno i), elem_of_map_to_list, Hin).
  induction (map_to_list t) as [|[i p] l IH]; simpl; [reflexivity|].
  destruct (Z.eqb_spec (Payment_invoice p) k) as [Heq|_].
  - exfalso. apply (Hl i p); [left|exact Heq].
  - apply IH. intros j r Hin. apply (Hl j). by right.
Qed.

Lemma related_payments_none (k : Z) (t : gmap Z Payment) :
  (forall i p, t !! i = Some p -> Payment_invoice p <> k) ->
  List.filter (fun r => (Payment_invoice r =? k)%Z) (instances t) = [].
Proof.
  intros Hno.
  assert (Hl : forall r, In r (instances t) -> Payment_invoice r <> k).
  { intros r (i & p & Hi & ->)%in_instances. simpl. by apply (Hno i). }
  induction (instances t) as [|r l IH]; simpl; [reflexivity|].
  destruct (Z.eqb_spec (Payment_invoice r) k) as [Heq|_].
  - exfalso. apply (Hl r); [by left|exact Heq].
  - apply IH. intros r' Hin. apply Hl. by right.
Qed.

(** The sum in hundredths: amounts of at most two places add up exactly. *)
Lemma cents_fits (md : Z) (d : Decimal.t) :
  Decimal.fits md 2 d ->
  (-2 <= Decimal.exp d)%Z /\ (Z.abs (cents d) < 10 ^ md)%Z.
Proof.
  intros [He Hc]. split; [lia|]. unfold cents.
  rewrite Z.abs_mul, (Z.abs_eq (10 ^ _)) by (apply Z.pow_nonneg; lia). exact Hc.
Qed.

Lemma cents_add_exact (a b : Decimal.t) :
  (-2 <= Decimal.exp a)%Z -> (-2 <= Decimal.exp b)%Z ->
  (-2 <= Decimal.exp (Decimal.add_exact a b))%Z
  /\ cents (Decimal.add_exact a b) = (cents a + cents b)%Z.
Proof.
  intros Ha Hb. unfold cents, Decimal.add_exact. simpl. split; [lia|].
  set (e := Z.min (Decimal.exp a) (Decimal.exp b)).
  rewrite Z.mul_add_distr_r, <- !Z.mul_assoc, <- !Z.pow_add_r by (unfold e; lia).
  f_equal; f_equal; f_equal; lia.
Qed.

Lemma cents_fold_add_exact (xs : list Decimal.t) (acc : Decimal.t) (n : Z) :
  Forall (Decimal.fits 12 2) xs ->
  (-2 <= Decimal.exp acc)%Z -> (Z.abs (cents acc) < n * 10 ^ 12)%Z ->
  (-2 <= Decimal.exp (fold_left Decimal.add_exact xs acc))%Z
  /\ (Z.abs (cents (fold_left Decimal.add_exact xs acc))
      < (n + Z.of_nat (length xs)) * 10 ^ 12)%Z.
Proof.
  intros Hxs. revert acc n. induction Hxs as [|x xs Hx _ IH]; intros acc n He Hc.
  - simpl. split; [exact He|]. rewrite Z.add_0_r. exact Hc.
  - cbn [fold_left length]. destruct (cents_fits 12 x Hx) as [Hex Hcx].
    destruct (cents_add_exact acc x He Hex) as [He' Hc'].
    destruct (IH (Decimal.add_exact acc x) (n + 1)%Z He') as [H1 H2].
    + rewrite Hc'. pose proof (Z.abs_triangle (cents acc) (cents x)). lia.
    + split; [exact H1|]. rewrite Nat2Z.inj_succ. 
      replace (n + Z.succ (Z.of_nat (length xs)))%Z
        with (n + 1 + Z.of_nat (length xs))%Z by lia.
      exact H2.
Qed.

Lemma cents_total_paid (xs : list Decimal.t) :
  Forall (Decimal.fits 12 2) xs ->
  (-2 <= Decimal.exp (or_decimal (Sum_decimal xs) (Decimal.mk 0 (-2))))%Z
  /\ (Z.abs (cents (or_decimal (Sum_decimal xs) (Decimal.mk 0 (-2))))
      < (1 + Z.of_nat (length xs)) * 10 ^ 12)%Z.
Proof.
  intros Hxs.
  assert (Hzero : (-2 <= Decimal.exp (Decimal.mk 0 (-2)))%Z
                  /\ (Z.abs (cents (Decimal.mk 0 (-2)))
                      < (1 + Z.of_nat (length xs)) * 10 ^ 12)%Z).
  { split; [simpl; lia|]. change (cents (Decimal.mk 0 (-2))) with 0%Z.
    change (10 ^ 12)%Z with 1000000000000%Z. simpl Z.abs. lia. }
  destruct xs as [|x xs]; [exact Hzero|].
  cbn [Sum_decimal or_decimal]. destruct (Decimal.is_zero _); [exact Hzero|].
  inversion Hxs as [|? ? Hx Hxs']; subst.
  destruct (cents_fits 12 x Hx) as [Hex Hcx].
  destruct (cents_fold_add_exact xs x 1 Hxs' Hex ltac:(lia)) as [H1 H2].
  split; [exact H1|]. cbn [length]. rewrite Nat2Z.inj_succ. lia.
Qed.

Lemma List_filter_length_le {A} (p : A -> bool) (l : list A) :
  (length (List.filter p l) <= length l)%nat.
Proof. induction l as [|x l IH]; simpl; [lia|]. destruct (p x); simpl; lia. Qed.

Lemma abs_cents (d : Decimal.t) :
  (-2 <= Decimal.exp d)%Z ->
  Z.abs (cents d) = (Z.abs (Decimal.coef d) * 10 ^ (Decimal.exp d + 2))%Z.
Proof.
  intros He. unfold cents.
  rewrite Z.abs_mul, (Z.abs_eq (10 ^ _)) by (apply Z.pow_nonneg; lia). reflexivity.
Qed.

(** C1. For an invoice stored under key [k] whose total and whose payments
    fit their fields, in a store of fewer than 10^15 payments,
    [Invoice.remaining_amount] leaves the store as it is and returns the
    total minus the sum of the amounts of the payments whose invoice is
    [k]; without such payments the sum is taken as 0.00. *)
Theorem Invoice_remaining_amount_spec (self : Invoice) (w : World) (k : Z) :
  Invoice_pk self = Some k ->
  Decimal.fits 12 2 (total_amount self) ->
  (forall i p, payments w !! i = Some p -> Decimal.fits 12 2 (amount p)) ->
  (Z.of_nat (size (payments w)) < 10 ^ 15)%Z ->
  exists r,
    Invoice_remaining_amount self w = (Ok r, w)
    /\ Decimal.value r
       == Decimal.value (total_amount self) - paid_total k (payments w)
    /\ ((forall i p, payments w !! i = Some p -> Payment_invoice p <> k) ->
        r = Decimal.sub (total_amount self) (Decimal.mk 0 (-2))
        /\ Decimal.value r == Decimal.value (total_amount self)).
Proof.
  intros Hk Ht Hrows Hsize.
  unfold Invoice_remaining_amount, bind. simpl pk. rewrite Hk, related_run.
  simpl objects.
  set (rows := List.filter (fun r => (Payment_invoice r =? k)%Z)
                 (instances (payments w))).
  set (tp := or_decimal (Sum_decimal (amount <$> rows)) (Decimal.mk 0 (-2))).
  exists (Decimal.sub (total_amount self) tp). split; [reflexivity|].
  assert (Hfor : Forall (Decimal.fits 12 2) (amount <$> rows)).
  { apply Forall_forall. intros a (r & -> & Hr)%list_elem_of_fmap.
    apply list_elem_of_In, filter_In in Hr as [Hr _].
    apply in_instances in Hr as (i & p & Hi & ->). simpl. by apply (Hrows i). }
  assert (Hlen : (Z.of_nat (length (amount <$> rows)) <= Z.of_nat (size (payments w)))%Z).
  { rewrite length_fmap. unfold rows.
    pose proof (List_filter_length_le (fun r => (Payment_invoice r =? k)%Z)
                  (instances (payments w))) as Hle.
    unfold instances in Hle at 2. rewrite length_fmap, length_map_to_list in Hle. lia. }
  destruct (cents_total_paid _ Hfor) as [Hetp Hctp]. fold tp in Hetp, Hctp.
  destruct (cents_fits 12 _ Ht) as [Het Hct].
  rewrite abs_cents in Hct, Hctp by assumption.
  assert (Hsub : Decimal.value (Decimal.sub (total_amount self) tp)
                 == Decimal.value (total_amount self) - Decimal.value tp).
  { apply sub_value.
    set (e := Z.min (Decimal.exp (total_amount self)) (Decimal.exp tp)).
    assert (He : (-2 <= e /\ e <= Decimal.exp (total_amount self) /\ e <= Decimal.exp tp)%Z)
      by (unfold e; lia).
    pose proof (scaled_weaken (Decimal.coef (total_amount self))
                  (Decimal.exp (total_amount self) + 2)
                  (Decimal.exp (total_amount self) - e) _ ltac:(lia) Hct) as HA.
    pose proof (scaled_weaken (Decimal.coef tp) (Decimal.exp tp + 2)
                  (Decimal.exp tp - e) _ ltac:(lia) Hctp) as HB.
    change (10 ^ 12)%Z with 1000000000000%Z in *.
    change (10 ^ 15)%Z with 1000000000000000%Z in *.
    change (10 ^ 28)%Z with 10000000000000000000000000000%Z. lia. }
  split.
  - rewrite Hsub. unfold tp. rewrite value_total_paid.
    unfold paid_total. rewrite map_fold_foldr. unfold rows, instances.
    rewrite paid_of_rows. reflexivity.
  - intros Hno. assert (Hnil : rows = []) by (by apply related_payments_none).
    split.
    + unfold tp. rewrite Hnil. reflexivity.
    + rewrite Hsub. unfold tp. rewrite value_total_paid, Hnil. simpl. ring.
Qed.

Lemma Invoice_remaining_amount_witness :
  exists r,
    Invoice_remaining_amount sample_invoice sample_world = (Ok r, sample_world)
    /\ Decimal.value r == 595 # 10.
Proof.
  destruct (Invoice_remaining_amount_spec sample_invoice sample_world 1)
    as (r & Hr & Hv & _).
  - reflexivity.
  - unfold Decimal.fits; cbn; lia.
  - intros i p Hi. apply elem_of_map_to_list, list_elem_of_In in Hi.
    vm_compute in Hi.
    destruct Hi as [Hi|[Hi|[Hi|[]]]]; injection Hi as <- <-;
      unfold Decimal.fits; cbn; lia.
  - vm_compute. reflexivity.
  - exists r. split; [exact Hr|]. rewrite Hv. vm_compute. reflexivity.
Defined.

Example sample_remaining_amount :
  Invoice_remaining_amount sample_invoice sample_world
  = (Ok (Decimal.mk 5950 (-2)), sample_world).
Proof. vm_compute. reflexivity. Qed.

(** * Further properties of the code *)

Local Close Scope Q_scope.

(** ** Order of dates and times *)

Lemma tuple_cmp_eq (a b : list Z) : tuple_cmp a b = Eq -> a = b.
Proof.
  revert b. induction a as [|x a IH]; intros [|y b]; simpl; try discriminate; auto.
  destruct (Z.compare_spec x y); try discriminate.
  intros Hab. subst. f_equal. by apply IH.
Qed.

Lemma tuple_cmp_refl (a : list Z) : tuple_cmp a a = Eq.
Proof. induction a as [|x a IH]; simpl; [reflexivity|]. by rewrite Z.compare_refl. Qed.

Lemma tuple_cmp_gt_trans (a b c : list Z) :
  tuple_cmp a b = Gt -> tuple_cmp b c = Gt -> tuple_cmp a c = Gt.
Proof.
  revert b c. induction a as [|x a IH]; intros [|y b] [|z c]; simpl;
    try discriminate; auto.
  destruct (Z.compare_spec x y), (Z.compare_spec y z), (Z.compare_spec x z);
    try discriminate; try lia; auto.
  apply IH.
Qed.

Lemma DateTime_gtb_later (t t' e : DateTime.t) :
  DateTime.geb t' t = true -> DateTime_gtb t e = true -> DateTime_gtb t' e = true.
Proof.
  unfold DateTime.geb, DateTime_gtb.
  destruct (tuple_cmp (DateTime.fields t') (DateTime.fields t)) eqn:E1; try discriminate;
    destruct (tuple_cmp (DateTime.fields t) (DateTime.fields e)) eqn:E2; try discriminate;
    intros _ _.
  - apply tuple_cmp_eq in E1. rewrite E1, E2. reflexivity.
  - by rewrite (tuple_cmp_gt_trans _ _ _ E1 E2).
Qed.

(** ** Password reset tokens *)

(** X1. A password reset token is expired exactly when the clock is strictly
    after [expires_at]: at the expiry instant itself it is still valid, and
    once expired it stays expired at every later clock reading; reading it
    leaves the store as it is. *)
Theorem PasswordResetToken_is_expired_monotone
    (self : PasswordResetToken) (w w' : World) :
  PasswordResetToken_is_expired self w
  = (Ok (DateTime_gtb (now w) (expires_at self)), w)
  /\ (now w = expires_at self ->
      PasswordResetToken_is_expired self w = (Ok false, w))
  /\ (DateTime.geb (now w') (now w) = true ->
      PasswordResetToken_is_expired self w = (Ok true, w) ->
      PasswordResetToken_is_expired self w' = (Ok true, w')).
Proof.
  unfold PasswordResetToken_is_expired, bind, timezone_now, ret.
  split; [reflexivity|]. split.
  - intros ->. unfold DateTime_gtb. by rewrite tuple_cmp_refl.
  - intros Hlater [= Hexp]. by rewrite (DateTime_gtb_later _ _ _ Hlater Hexp).
Qed.

(** ** Invoices over time *)

Lemma Date_after_trans (a b c : Date.t) :
  Date.after a b -> Date.after b c -> Date.after a c.
Proof. unfold Date.after. lia. Qed.

Lemma Date_after_irrefl (a : Date.t) : ~ Date.after a a.
Proof. unfold Date.after. lia. Qed.

Lemma Date_after_total (a b : Date.t) :
  Date.after a b \/ Date.after b a
  \/ (Date.year a = Date.year b /\ Date.month a = Date.month b /\ Date.day a = Date.day b).
Proof. unfold Date.after. lia. Qed.

Lemma Invoice_is_overdue_run (self : Invoice) (w : World) :
  Invoice_is_overdue self w
  = (Ok (negb (in_list (Invoice_status self) ["paid"; "cancelled"]%string)
         && Date.gtb (DateTime.date (now w)) (due_date self)), w).
Proof.
  unfold Invoice_is_overdue. destruct (in_list _ _); reflexivity.
Qed.

(** X2. On its due date an invoice is not yet overdue, and an invoice that
    is overdue stays overdue on every later date as long as its status is
    the same. *)
Theorem Invoice_is_overdue_monotone (self : Invoice) (w w' : World) :
  (DateTime.date (now w) = due_date self ->
   Invoice_is_overdue self w = (Ok false, w))
  /\ (~ Date.after (DateTime.date (now w)) (DateTime.date (now w')) ->
      Invoice_is_overdue self w = (Ok true, w) ->
      Invoice_is_overdue self w' = (Ok true, w')).
Proof.
  rewrite !Invoice_is_overdue_run. split.
  - intros ->. destruct (Date.gtb (due_date self) (due_date self)) eqn:E.
    + apply Date_gtb_after in E. by apply Date_after_irrefl in E.
    + by rewrite andb_false_r.
  - intros Hlater Hov.
    assert (Hb : negb (in_list (Invoice_status self) ["paid"; "cancelled"]%string)
                 && Date.gtb (DateTime.date (now w)) (due_date self) = true)
      by congruence.
    apply andb_true_iff in Hb as [Hst Hd]. rewrite Hst. simpl. f_equal. f_equal.
    apply Date_gtb_after in Hd. apply Date_gtb_after.
    destruct (Date_after_total (DateTime.date (now w')) (DateTime.date (now w)))
      as [H|[H|(Hy & Hm & Hdd)]].
    + by apply (Date_after_trans _ _ _ H).
    + contradiction.
    + unfold Date.after in *. rewrite Hy, Hm, Hdd. exact Hd.
Qed.

(** ** Generated numbers and the uniqueness of the number column *)

Section Save_facts.
Context {R : Type} `{Model R}.

Lemma Model_save_ok (self self' : R) (w w' : World) :
  Model_save self w = (Ok self', w') ->
  exists k,
    unique_clash k self (objects w) = false
    /\ self' = set_pk (Some k) self
    /\ w' = set_objects (<[k := self']> (objects w)) w
    /\ (pk self = Some k \/ (pk self = None /\ k = fresh (dom (objects w)))).
Proof.
  unfold Model_save. intros Hs.
  set (k := match pk self with Some k => k | None => fresh (dom (objects w)) end) in *.
  destruct (unique_clash k self (objects w)) eqn:E; [discriminate|].
  injection Hs as <- <-. exists k. repeat split; auto.
  unfold k. destruct (pk self); auto.
Qed.
End Save_facts.






(** ** The formatted time determines the clock down to the second *)

Lemma digit_inj (a b : Z) : DateTime.digit a = DateTime.digit b -> a mod 10 = b mod 10.
Proof.
  unfold DateTime.digit. intros Hd.
  apply (f_equal nat_of_ascii) in Hd.
  pose proof (Z.mod_pos_bound a 10 ltac:(lia)).
  pose proof (Z.mod_pos_bound b 10 ltac:(lia)).
  rewrite !nat_ascii_embedding in Hd by lia. lia.
Qed.

Lemma pad2_inj (a b : Z) :
  0 <= a < 100 -> 0 <= b < 100 -> DateTime.pad2 a = DateTime.pad2 b -> a = b.
Proof.
  intros Ha Hb Hp. unfold DateTime.pad2 in Hp. injection Hp as H1 H0.
  apply digit_inj in H1. apply digit_inj in H0.
  Z.to_euclidean_division_equations; lia.
Qed.

Lemma decimal_four_digits (y : Z) :
  1000 <= y <= 9999 ->
  DateTime.decimal y
  = String (DateTime.digit (y / 10 / 10 / 10))
      (String (DateTime.digit (y / 10 / 10))
         (String (DateTime.digit (y / 10))
            (String (DateTime.digit y) EmptyString))).
Proof.
  intros Hy. unfold DateTime.decimal.
  destruct (Z.to_nat y) as [|[|[|[|fuel]]]] eqn:Hf; try lia.
  cbn [DateTime.decimal_fuel].
  destruct (Z.ltb_spec y 10); [lia|].
  destruct (Z.ltb_spec (y / 10) 10); [Z.to_euclidean_division_equations; lia|].
  destruct (Z.ltb_spec (y / 10 / 10) 10); [Z.to_euclidean_division_equations; lia|].
  destruct (Z.ltb_spec (y / 10 / 10 / 10) 10);
    [reflexivity|Z.to_euclidean_division_equations; lia].
Qed.

(** X5. For clock readings in years of four digits, the formatted time
    determines year, month, day, hour, minute and second: two readings
    with the same format differ at most in their microseconds. *)
Theorem strftime_injective (a b : DateTime.t) :
  DateTime.valid a -> DateTime.valid b ->
  1000 <= DateTime.year a -> 1000 <= DateTime.year b ->
  DateTime.strftime a = DateTime.strftime b ->
  DateTime.year a = DateTime.year b /\ DateTime.month a = DateTime.month b
  /\ DateTime.day a = DateTime.day b /\ DateTime.hour a = DateTime.hour b
  /\ DateTime.minute a = DateTime.minute b /\ DateTime.second a = DateTime.second b.
Proof.
  intros (Hya & Hma & Hda & Hha & Hmia & Hsa & _) (Hyb & Hmb & Hdb & Hhb & Hmib & Hsb & _)
         Ha Hb Heq.
  unfold DateTime.strftime in Heq.
  rewrite !decimal_four_digits in Heq by lia.
  unfold DateTime.pad2 in Heq. cbn [append] in Heq.
  injection Heq as Y3 Y2 Y1 Y0 M1 M0 D1 D0 H1 H0 I1 I0 S1 S0.
  apply digit_inj in Y3, Y2, Y1, Y0, M1, M0, D1, D0, H1, H0, I1, I0, S1, S0.
  repeat split; Z.to_euclidean_division_equations; lia.
Qed.

Lemma strftime_injective_witness :
  DateTime.second (DateTime.mk 2024 3 5 7 8 9 0)
  = DateTime.second (DateTime.mk 2024 3 5 7 8 9 500000).
Proof.
  refine (proj2 (proj2 (proj2 (proj2 (proj2
    (strftime_injective (DateTime.mk 2024 3 5 7 8 9 0)
                        (DateTime.mk 2024 3 5 7 8 9 500000) _ _ _ _ _)))))).
  - unfold DateTime.valid; simpl; lia.
  - unfold DateTime.valid; simpl; lia.
  - simpl; lia.
  - simpl; lia.
  - reflexivity.
Defined.

(** ** Primary images: validation and saving *)

Lemma ProductImage_clean_ok (self : ProductImage) (w : World) :
  ProductImage_clean self w = (Ok tt, w)
  <-> (is_primary self = true -> ~ other_primary self (product_images w)).
Proof.
  rewrite ProductImage_clean_run.
  pose proof (existing_primary_iff self (product_images w)) as Hiff.
  destruct (is_primary self); simpl.
  - destruct (exists_ _); split.
    + discriminate.
    + intros Hno. exfalso. apply Hno; [reflexivity|]. by apply Hiff.
    + intros _ _ Ho. apply Hiff in Ho. discriminate.
    + reflexivity.
  - split; [discriminate|reflexivity].
Qed.

(** X6. Validation followed by saving keeps the invariant: in a store with
    at most one primary image per product, an image that passes
    [ProductImage.clean] and is then saved leaves a store with at most one
    primary image per product. *)
Theorem ProductImage_clean_then_save (self self' : ProductImage) (w w' : World) :
  at_most_one_primary (product_images w) ->
  ProductImage_clean self w = (Ok tt, w) ->
  Model_save self w = (Ok self', w') ->
  at_most_one_primary (product_images w').
Proof.
  intros Hinv Hclean0 Hsave.
  pose proof (proj1 (ProductImage_clean_ok self w) Hclean0) as Hclean.
  apply Model_save_ok in Hsave as (k & _ & Hself' & Hw' & Hk).
  assert (Ht' : product_images w' = <[k := self']> (product_images w)) by (by rewrite Hw').
  assert (Hprim : is_primary self' = is_primary self) by (by rewrite Hself').
  assert (Hprod : ProductImage_product self' = ProductImage_product self)
    by (by rewrite Hself').
  assert (Hother : forall k2 r2,
             product_images w !! k2 = Some r2 -> k2 <> k ->
             is_primary self = true -> is_primary r2 = true ->
             ProductImage_product r2 = ProductImage_product self -> False).
  { intros k2 r2 Hr2 Hne Hp Hp2 Hpr. apply (Hclean Hp).
    exists k2, r2. repeat split; auto.
    destruct Hk as [Hk|[Hk _]]; change (pk self) with (ProductImage_pk self) in Hk;
      rewrite Hk; congruence. }
  rewrite Ht'. intros k1 k2 r1 r2 H1 H2 Hp1 Hp2 Hpr.
  destruct (decide (k1 = k)) as [->|Hn1]; destruct (decide (k2 = k)) as [->|Hn2];
    auto.
  - rewrite lookup_insert_eq in H1. rewrite lookup_insert_ne in H2 by congruence.
    injection H1 as <-. exfalso. apply (Hother k2 r2); auto; congruence.
  - rewrite lookup_insert_eq in H2. rewrite lookup_insert_ne in H1 by congruence.
    injection H2 as <-. exfalso. apply (Hother k1 r1); auto; congruence.
  - rewrite lookup_insert_ne in H1, H2 by congruence.
    by apply (Hinv k1 k2 r1 r2).
Qed.

Lemma ProductImage_clean_then_save_witness :
  at_most_one_primary
    (product_images
       (Model_save (mkProductImage None 2 true) sample_world).2).
Proof.
  apply (ProductImage_clean_then_save
           (mkProductImage None 2 true) (mkProductImage (Some 3) 2 true) sample_world).
  - intros k1 k2 r1 r2 H1 H2 Hp1 Hp2 _.
    apply elem_of_map_to_list, list_elem_of_In in H1.
    apply elem_of_map_to_list, list_elem_of_In in H2.
    vm_compute in H1, H2.
    destruct H1 as [H1|[H1|[]]]; injection H1 as <- <-;
      destruct H2 as [H2|[H2|[]]]; injection H2 as <- <-;
      try reflexivity; discriminate.
  - vm_compute. reflexivity.
  - vm_compute. reflexivity.
Defined.

(** X7. A store has at most one primary image per product exactly when
    every stored image passes [ProductImage.clean]: excluding the
    instance's own primary key, a stored primary image never conflicts
    with itself. *)
Theorem ProductImage_store_valid_iff (w : World) :
  at_most_one_primary (product_images w)
  <-> (forall k r, product_images w !! k = Some r ->
                   ProductImage_clean (set_pk (Some k) r) w = (Ok tt, w)).
Proof.
  split.
  - intros Hinv k r Hr. apply ProductImage_clean_ok. simpl.
    intros Hp (k2 & r2 & Hr2 & Hne & Hprod & Hp2). simpl in *.
    apply Hne. f_equal. apply (Hinv k2 k r2 r); auto.
  - intros Hvalid k1 k2 r1 r2 H1 H2 Hp1 Hp2 Hprod.
    destruct (decide (k1 = k2)) as [|Hne]; [assumption|exfalso].
    pose proof (proj1 (ProductImage_clean_ok _ _) (Hvalid k1 r1 H1)) as Hv.
    apply Hv; [exact Hp1|]. exists k2, r2. simpl. repeat split; auto. congruence.
Qed.

(** ** Payments and the remaining amount *)

Local Open Scope Q_scope.

Lemma paid_total_insert (k i : Z) (p : Payment) (t : gmap Z Payment) :
  t !! i = None ->
  paid_total k (<[i := p]> t)
  == (if (Payment_invoice p =? k)%Z then Decimal.value (amount p) else 0)
     + paid_total k t.
Proof.
  intros Hi. unfold paid_total.
  rewrite (map_fold_insert Qeq); [| | |exact Hi].
  - destruct (Payment_invoice p =? k)%Z; ring.
  - intros j z x y Hxy. destruct (Payment_invoice z =? k)%Z; [|exact Hxy].
    by rewrite Hxy.
  - intros j1 j2 z1 z2 y _ _ _.
    destruct (Payment_invoice z1 =? k)%Z, (Payment_invoice z2 =? k)%Z; ring.
Qed.

Lemma remaining_amount_value (self : Invoice) (w : World) (k : Z) :
  Invoice_pk self = Some k ->
  Decimal.fits 12 2 (total_amount self) ->
  (forall i p, payments w !! i = Some p -> Decimal.fits 12 2 (amount p)) ->
  (Z.of_nat (size (payments w)) < 10 ^ 15)%Z ->
  exists r,
    Invoice_remaining_amount self w = (Ok r, w)
    /\ Decimal.value r
       == Decimal.value (total_amount self) - paid_total k (payments w).
Proof.
  intros Hk Ht Hrows Hsize.
  unfold Invoice_remaining_amount, bind. simpl pk. rewrite Hk, related_run.
  simpl objects.
  set (rows := List.filter (fun r => (Payment_invoice r =? k)%Z)
                 (instances (payments w))).
  set (tp := or_decimal (Sum_decimal (amount <$> rows)) (Decimal.mk 0 (-2))).
  exists (Decimal.sub (total_amount self) tp). split; [reflexivity|].
  assert (Hfor : Forall (Decimal.fits 12 2) (amount <$> rows)).
  { apply Forall_forall. intros a (r & -> & Hr)%list_elem_of_fmap.
    apply list_elem_of_In, filter_In in Hr as [Hr _].
    apply in_instances in Hr as (i & p & Hi & ->). simpl. by apply (Hrows i). }
  assert (Hlen : (Z.of_nat (length (amount <$> rows)) <= Z.of_nat (size (payments w)))%Z).
  { rewrite length_fmap. unfold rows.
    pose proof (List_filter_length_le (fun r => (Payment_invoice r =? k)%Z)
                  (instances (payments w))) as Hle.
    unfold instances in Hle at 2. rewrite length_fmap, length_map_to_list in Hle. lia. }
  destruct (cents_total_paid _ Hfor) as [Hetp Hctp]. fold tp in Hetp, Hctp.
  destruct (cents_fits 12 _ Ht) as [Het Hct].
  rewrite abs_cents in Hct, Hctp by assumption.
  rewrite sub_value.
  - unfold tp. rewrite value_total_paid.
    unfold paid_total. rewrite map_fold_foldr. unfold rows, instances.
    rewrite paid_of_rows. reflexivity.
  - set (e := Z.min (Decimal.exp (total_amount self)) (Decimal.exp tp)).
    assert (He : (-2 <= e /\ e <= Decimal.exp (total_amount self) /\ e <= Decimal.exp tp)%Z)
      by (unfold e; lia).
    pose proof (scaled_weaken (Decimal.coef (total_amount self))
                  (Decimal.exp (total_amount self) + 2)
                  (Decimal.exp (total_amount self) - e) _ ltac:(lia) Hct) as HA.
    pose proof (scaled_weaken (Decimal.coef tp) (Decimal.exp tp + 2)
                  (Decimal.exp tp - e) _ ltac:(lia) Hctp) as HB.
    change (10 ^ 12)%Z with 1000000000000%Z in *.
    change (10 ^ 15)%Z with 1000000000000000%Z in *.
    change (10 ^ 28)%Z with 10000000000000000000000000000%Z. lia.
Qed.

Lemma Payment_save_run (self : Payment) (w : World) :
  Payment_save self w
  = Model_save
      (if nonempty (payment_number self) then self
       else set_payment_number ("PAY-" ++ DateTime.strftime (now w)) self) w.
Proof.
  unfold Payment_save, bind, timezone_now, ret.
  destruct (nonempty (payment_number self)); reflexivity.
Qed.

(** X8. Recording a payment lowers the remaining amount by the amount paid:
    after [Payment.save] stores a new payment of invoice [k], the remaining
    amount of that invoice is the former one minus the payment's amount,
    and the remaining amount of every other invoice is as before. *)
Theorem Payment_save_reduces_remaining
    (self : Invoice) (p p' : Payment) (w w' : World) (k : Z) :
  Invoice_pk self = Some k ->
  Payment_pk p = None ->
  Payment_save p w = (Ok p', w') ->
  Decimal.fits 12 2 (total_amount self) ->
  (forall i q, payments w' !! i = Some q -> Decimal.fits 12 2 (amount q)) ->
  (Z.of_nat (size (payments w')) < 10 ^ 15)%Z ->
  exists r r',
    Invoice_remaining_amount self w = (Ok r, w)
    /\ Invoice_remaining_amount self w' = (Ok r', w')
    /\ Decimal.value r'
       == Decimal.value r
          - (if (Payment_invoice p =? k)%Z then Decimal.value (amount p) else 0).
Proof.
  intros Hk Hnew Hsave Ht Hrows' Hsize'.
  rewrite Payment_save_run in Hsave.
  set (p1 := if nonempty (payment_number p) then p
             else set_payment_number ("PAY-" ++ DateTime.strftime (now w)) p) in *.
  assert (Hp1 : Payment_pk p1 = None /\ amount p1 = amount p
                /\ Payment_invoice p1 = Payment_invoice p).
  { unfold p1. destruct (nonempty (payment_number p)); simpl; auto. }
  destruct Hp1 as (Hpk1 & Ham1 & Hinv1).
  apply Model_save_ok in Hsave as (i & _ & Hp' & Hw' & Hi).
  destruct Hi as [Hi|[_ Hi]]; [change (pk p1) with (Payment_pk p1) in Hi; congruence|].
  assert (Hfree : payments w !! i = None).
  { apply not_elem_of_dom. rewrite Hi. apply is_fresh. }
  assert (Ht' : payments w' = <[i := p']> (payments w)) by (by rewrite Hw').
  assert (Ham : amount p' = amount p) by (rewrite Hp'; simpl; exact Ham1).
  assert (Hinv : Payment_invoice p' = Payment_invoice p) by (rewrite Hp'; simpl; exact Hinv1).
  assert (Hrows : forall j q, payments w !! j = Some q -> Decimal.fits 12 2 (amount q)).
  { intros j q Hj. apply (Hrows' j). rewrite Ht', lookup_insert_ne; [exact Hj|].
    intros <-. congruence. }
  assert (Hsize : (Z.of_nat (size (payments w)) < 10 ^ 15)%Z).
  { rewrite Ht', map_size_insert_None in Hsize' by exact Hfree. lia. }
  destruct (remaining_amount_value self w k Hk Ht Hrows Hsize) as (r & Hr & Hv).
  destruct (remaining_amount_value self w' k Hk Ht Hrows' Hsize') as (r' & Hr' & Hv').
  exists r, r'. split; [exact Hr|]. split; [exact Hr'|].
  rewrite Hv', Hv, Ht', paid_total_insert by exact Hfree.
  rewrite Ham, Hinv. destruct (Payment_invoice p =? k)%Z; ring.
Qed.

Lemma Payment_save_reduces_remaining_witness :
  exists r r',
    Invoice_remaining_amount sample_invoice sample_world = (Ok r, sample_world)
    /\ Decimal.value r' == Decimal.value r - (2000 # 100).
Proof.
  destruct (Payment_save_reduces_remaining sample_invoice
              (mkPayment None "" 1 (Decimal.mk 2000 (-2)))
              (mkPayment (Some 4%Z) "PAY-20240305070809" 1 (Decimal.mk 2000 (-2)))
              sample_world
              (Payment_save (mkPayment None "" 1 (Decimal.mk 2000 (-2))) sample_world).2
              1)
    as (r & r' & Hr & _ & Hv).
  - reflexivity.
  - reflexivity.
  - vm_compute. reflexivity.
  - unfold Decimal.fits; cbn; lia.
  - intros i q Hi. apply elem_of_map_to_list, list_elem_of_In in Hi.
    vm_compute in Hi.
    destruct Hi as [Hi|[Hi|[Hi|[Hi|[]]]]]; injection Hi as <- <-;
      unfold Decimal.fits; cbn; lia.
  - vm_compute. reflexivity.
  - exists r, r'. split; [exact Hr|]. rewrite Hv. vm_compute. reflexivity.
Defined.

Local Close Scope Q_scope.

(** ** Stock movements *)

(** X9. Stock levels add up over movements: after a new inventory item is
    stored, the current stock of its product has changed by the item's
    quantity, and the current stock of every other product is as before. *)
Theorem current_stock_after_movement
    (self : Product) (item item' : InventoryItem) (w w' : World) (k : Z) :
  Product_pk self = Some k ->
  InventoryItem_pk item = None ->
  Model_save item w = (Ok item', w') ->
  exists s s',
    Product_current_stock self w = (Ok s, w)
    /\ Product_current_stock self w' = (Ok s', w')
    /\ s' = s + (if InventoryItem_product item =? k
                 then InventoryItem_quantity item else 0).
Proof.
  intros Hk Hnew Hsave.
  apply Model_save_ok in Hsave as (i & _ & Hitem' & Hw' & Hi).
  destruct Hi as [Hi|[_ Hi]];
    [change (pk item) with (InventoryItem_pk item) in Hi; congruence|].
  assert (Hfree : inventory_items w !! i = None).
  { apply not_elem_of_dom. rewrite Hi. apply is_fresh. }
  assert (Ht' : inventory_items w' = <[i := item']> (inventory_items w))
    by (by rewrite Hw').
  exists (stock_total k (inventory_items w)), (stock_total k (inventory_items w')).
  rewrite !(Product_current_stock_run self _ k Hk).
  split; [reflexivity|]. split; [reflexivity|].
  rewrite Ht', stock_total_insert by exact Hfree. rewrite Hitem'. simpl. lia.
Qed.

Lemma current_stock_after_movement_witness :
  exists s',
    Product_current_stock sample_product
      (Model_save (mkInventoryItem None 1 (-3)) sample_world).2
    = (Ok s', (Model_save (mkInventoryItem None 1 (-3)) sample_world).2)
    /\ s' = 0.
Proof.
  destruct (current_stock_after_movement sample_product
              (mkInventoryItem None 1 (-3)) (mkInventoryItem (Some 4) 1 (-3))
              sample_world
              (Model_save (mkInventoryItem None 1 (-3)) sample_world).2 1)
    as (s & s' & Hs & Hs' & Heq).
  - reflexivity.
  - reflexivity.
  - vm_compute. reflexivity.
  - exists s'. split; [exact Hs'|].
    vm_compute in Hs. injection Hs as <-. rewrite Heq. reflexivity.
Defined.

(** ** The client address of a login *)

Lemma split_nonempty (sep : ascii) (s : string) : split sep s <> [].
Proof.
  destruct s as [|c s]; simpl; [discriminate|].
  destruct (Ascii.eqb c sep); [discriminate|].
  destruct (split sep s); discriminate.
Qed.

(** Splitting and joining with the same separator gives the string back. *)
Lemma join_split (sep : ascii) (s : string) :
  join (String sep EmptyString) (split sep s) = s.
Proof.
  induction s as [|c s IH]; [reflexivity|].
  cbn [split]. destruct (Ascii.eqb_spec c sep) as [->|Hne].
  - pose proof (split_nonempty sep s) as Hn.
    destruct (split sep s) as [|h t] eqn:E; [contradiction|].
    cbn [join]. simpl. by rewrite <- IH.
  - pose proof (split_nonempty sep s) as Hn.
    destruct (split sep s) as [|h t] eqn:E; [contradiction|].
    rewrite <- IH. destruct t as [|h' t']; reflexivity.
Qed.

(** No part of a split contains the separator. *)
Lemma split_parts_clean (sep : ascii) (s : string) :
  Forall (fun part => occurs sep part = false) (split sep s).
Proof.
  induction s as [|c s IH]; [by repeat constructor|].
  cbn [split]. destruct (Ascii.eqb_spec c sep) as [->|Hne].
  - constructor; [reflexivity|exact IH].
  - destruct (split sep s) as [|h t]; [repeat constructor|].
    + simpl. apply Ascii.eqb_neq in Hne. by rewrite Hne.
    + inversion IH as [|? ? Hh Ht]; subst. constructor; [|exact Ht].
      simpl. apply Ascii.eqb_neq in Hne. by rewrite Hne, Hh.
Qed.

(** X10. [get_client_ip] returns the text of the X-Forwarded-For header up
    to its first comma: the result holds no comma, and the header is the
    result alone or the result followed by a comma and the rest; a missing
    or empty header falls back to REMOTE_ADDR. *)
Theorem get_client_ip_first_hop (meta : RequestMeta) :
  (forall s, HTTP_X_FORWARDED_FOR meta = Some s -> s <> ""%string ->
     exists ip,
       get_client_ip meta = Some ip
       /\ occurs "," ip = false
       /\ (s = ip \/ exists rest, s = (ip ++ "," ++ rest)%string))
  /\ (HTTP_X_FORWARDED_FOR meta = None -> get_client_ip meta = REMOTE_ADDR meta)
  /\ (HTTP_X_FORWARDED_FOR meta = Some ""%string ->
      get_client_ip meta = REMOTE_ADDR meta).
Proof.
  unfold get_client_ip. split; [|split].
  - intros s Hs Hne. rewrite Hs.
    assert (Hn : nonempty s = true) by (destruct s; [contradiction|reflexivity]).
    rewrite Hn.
    pose proof (join_split "," s) as Hj.
    pose proof (split_parts_clean "," s) as Hc.
    pose proof (split_nonempty "," s) as Hnn.
    destruct (split "," s) as [|ip t]; [contradiction|].
    exists ip. split; [reflexivity|]. apply Forall_inv in Hc. split; [exact Hc|].
    destruct t as [|h t'].
    + left. symmetry. exact Hj.
    + right. exists (join "," (h :: t')). symmetry. exact Hj.
  - intros ->. reflexivity.
  - intros ->. reflexivity.
Qed.

Example get_client_ip_sample :
  get_client_ip (mkRequestMeta (Some "203.0.113.7, 10.0.0.1, 10.0.0.2"%string)
                               (Some "10.0.0.2"%string))
  = Some "203.0.113.7"%string.
Proof. reflexivity. Qed.

(** ** Serializers *)

Lemma Value_eqb_eq (x y : Value) : Value_eqb x y = true <-> x = y.
Proof.
  destruct x, y; simpl; split; try discriminate; try reflexivity; intros H.
  - apply Z.eqb_eq in H. by subst.
  - injection H as ->. apply Z.eqb_refl.
  - apply String.eqb_eq in H. by subst.
  - injection H as ->. apply String.eqb_refl.
  - apply Bool.eqb_prop in H. by subst.
  - injection H as ->. by destruct b0.
Qed.

(** X11. The serializer and the model agree on addresses: on data whose
    contact and company are instances or [None] (a missing key counts as
    [None]), [AddressSerializer.validate] returns the data unchanged
    exactly when [Address.clean] accepts the address the data describes,
    and otherwise fails with the message [Address.clean] raises. *)
Theorem AddressSerializer_validate_agrees (data : gmap string Value) :
  is_reference (dict_get data "contact") ->
  is_reference (dict_get data "company") ->
  (AddressSerializer_validate data = inr data
   <-> Address_clean (address_of_data data) = Ok tt)
  /\ (forall msg,
        AddressSerializer_validate data = inl (SerializerValidationError msg)
        <-> Address_clean (address_of_data data) = Raise (ValidationError msg))
  /\ (forall d, AddressSerializer_validate data = inr d -> d = data).
Proof.
  unfold AddressSerializer_validate, Address_clean, address_of_data.
  intros [Hc|[kc Hc]] [Hm|[km Hm]]; rewrite Hc, Hm; simpl;
    (split; [|split]); try (split; congruence);
    try (intros msg; split; congruence);
    try (intros d; congruence).
Qed.

Lemma AddressSerializer_validate_agrees_witness :
  AddressSerializer_validate {[ "company"%string := VInstance 7 ]}
  = inr {[ "company"%string := VInstance 7 ]}.
Proof.
  apply (AddressSerializer_validate_agrees {[ "company"%string := VInstance 7 ]}).
  - left. reflexivity.
  - right. exists 7. reflexivity.
  - reflexivity.
Defined.

(** X12. Registration: [validate] fails with a key error when the password
    or its confirmation is missing and with a validation error when they
    differ; when it returns, the two are equal and the data is unchanged,
    and [create] on that data gets past [pop]: it calls [create_user] with
    every field except the confirmation, the password among them, returns
    the user that call returns and fails exactly when that call fails, with
    its exception.  On a dictionary without the confirmation [create]
    fails with a key error before any call. *)
Theorem RegisterSerializer_validate_create {E U : Type}
    (create_user : gmap string Value -> E + U) (data : gmap string Value) :
  (data !! "password"%string = None ->
   RegisterSerializer_validate data = inl (KeyError "password"))
  /\ (data !! "password"%string <> None ->
      data !! "password_confirm"%string = None ->
      RegisterSerializer_validate data = inl (KeyError "password_confirm"))
  /\ (forall d,
        RegisterSerializer_validate data = inr d ->
        d = data
        /\ (exists pw, data !! "password"%string = Some pw
                       /\ data !! "password_confirm"%string = Some pw)
        /\ exists kwargs,
             kwargs !! "password_confirm"%string = None
             /\ kwargs !! "password"%string = data !! "password"%string
             /\ (forall key, key <> "password_confirm"%string ->
                             kwargs !! key = data !! key)
             /\ (forall user, create_user kwargs = inr user ->
                              RegisterSerializer_create create_user d = inr user)
             /\ (forall e, create_user kwargs = inl e ->
                           RegisterSerializer_create create_user d = inl (inr e)))
  /\ (data !! "password_confirm"%string = None ->
      RegisterSerializer_create create_user data
      = inl (inl (KeyError "password_confirm")))
  /\ (forall pw pw',
        data !! "password"%string = Some pw ->
        data !! "password_confirm"%string = Some pw' ->
        pw <> pw' ->
        RegisterSerializer_validate data
        = inl (SerializerValidationError "Passwords don't match.")).
Proof.
  unfold RegisterSerializer_validate, RegisterSerializer_create, dict_item.
  split; [|split; [|split; [|split]]].
  - intros ->. reflexivity.
  - intros Hp ->. destruct (data !! "password"%string); [reflexivity|contradiction].
  - intros d.
    destruct (data !! "password"%string) as [pw|] eqn:Hp; [|discriminate].
    destruct (data !! "password_confirm"%string) as [pw'|] eqn:Hc; [|discriminate].
    destruct (Value_eqb pw pw') eqn:He; simpl; [|discriminate].
    intros [= <-]. apply Value_eqb_eq in He. subst pw'.
    split; [reflexivity|]. split; [eauto|].
    rewrite Hc. exists (delete "password_confirm"%string data).
    split; [apply lookup_delete_eq|]. split.
    + rewrite lookup_delete_ne by discriminate. exact Hp.
    + split; [intros key Hk; by apply lookup_delete_ne|].
      split; [intros user ->|intros e ->]; reflexivity.
  - intros ->. reflexivity.
  - intros pw pw' -> -> Hne.
    destruct (Value_eqb pw pw') eqn:He; [|reflexivity].
    apply Value_eqb_eq in He. contradiction.
Qed.

(** ** Contact statistics *)

Lemma filter_split_length {A} (p q : A -> bool) (l : list A) :
  (forall x, In x l -> q x = negb (p x)) ->
  (length (List.filter p l) + length (List.filter q l) = length l)%nat.
Proof.
  induction l as [|x l IH]; intros Hq; [reflexivity|]. simpl.
  rewrite (Hq x) by (by left). destruct (p x); simpl;
    rewrite <- (IH (fun y Hy => Hq y (or_intror Hy))); lia.
Qed.

Lemma filter_or_length {A} (p q : A -> bool) (l : list A) :
  (forall x, In x l -> p x = true -> q x = false) ->
  (length (List.filter (fun x => p x || q x) l)
   = length (List.filter p l) + length (List.filter q l))%nat.
Proof.
  induction l as [|x l IH]; intros Hd; [reflexivity|]. simpl.
  specialize (IH (fun y Hy => Hd y (or_intror Hy))).
  pose proof (Hd x (or_introl eq_refl)) as Hx.
  destruct (p x); simpl; [rewrite Hx by reflexivity; simpl; lia|].
  destruct (q x); simpl; lia.
Qed.

Lemma counts_by_type (types : list string) (rows : list Contact) :
  NoDup types ->
  sum_list ((fun ty => length (List.filter (fun c => String.eqb (contact_type c) ty) rows))
              <$> types)
  = length (List.filter (fun c => in_list (contact_type c) types) rows).
Proof.
  intros Hnd. induction Hnd as [|ty types Hnot _ IH].
  - simpl. induction rows as [|c rows IHr]; [reflexivity|exact IHr].
  - rewrite fmap_cons.
    change (sum_list (?a :: ?l)) with (a + sum_list l)%nat.
    rewrite IH. symmetry.
    apply (filter_or_length (fun c => String.eqb (contact_type c) ty)
             (fun c => in_list (contact_type c) types)).
    intros c _ Hc. apply String.eqb_eq in Hc.
    destruct (in_list (contact_type c) types) eqn:E; [|reflexivity].
    exfalso. apply Hnot. unfold in_list in E. apply existsb_exists in E as (x & Hx & He).
    apply String.eqb_eq in He. apply list_elem_of_In. congruence.
Qed.

Lemma CONTACT_TYPES_NoDup : NoDup CONTACT_TYPES.
Proof. apply (bool_decide_unpack (NoDup CONTACT_TYPES)). vm_compute. exact I.
Qed.

Lemma filter_all_length {A} (p : A -> bool) (l : list A) :
  (forall x, In x l -> p x = true) -> length (List.filter p l) = length l.
Proof.
  induction l as [|x l IH]; intros Hp; [reflexivity|]. simpl.
  rewrite (Hp x) by (by left). simpl. f_equal. apply IH. intros y Hy. apply Hp. by right.
Qed.

(** X13. The contact statistics add up: active and inactive contacts
    together are all contacts; the per-type counts are listed for the four
    contact types, never exceed the total together, and sum to the total
    when every contact has one of the four types. *)
Theorem ContactViewSet_statistics_add_up (t : gmap Z Contact) :
  (active_contacts (ContactViewSet_statistics t)
   + inactive_contacts (ContactViewSet_statistics t)
   = total_contacts (ContactViewSet_statistics t))%nat
  /\ (by_type (ContactViewSet_statistics t)).*1 = CONTACT_TYPES
  /\ (sum_list ((by_type (ContactViewSet_statistics t)).*2)
      <= total_contacts (ContactViewSet_statistics t))%nat
  /\ ((forall k c, t !! k = Some c -> In (contact_type c) CONTACT_TYPES) ->
      sum_list ((by_type (ContactViewSet_statistics t)).*2)
      = total_contacts (ContactViewSet_statistics t)).
Proof.
  unfold ContactViewSet_statistics, count_where.
  cbn [total_contacts active_contacts inactive_contacts by_type].
  set (rows := (map_to_list t).*2).
  assert (Hsize : size t = length rows)
    by (unfold rows; by rewrite length_fmap, length_map_to_list).
  assert (Hsum : sum_list
            ((fun ty => (ty, length (List.filter
                                       (fun c => String.eqb (contact_type c) ty) rows)))
               <$> CONTACT_TYPES).*2
          = length (List.filter (fun c => in_list (contact_type c) CONTACT_TYPES) rows)).
  { rewrite <- (counts_by_type CONTACT_TYPES rows CONTACT_TYPES_NoDup). reflexivity. }
  split; [|split; [|split]].
  - rewrite Hsize. apply filter_split_length. intros c _. by destruct (Contact_is_active c).
  - rewrite <- list_fmap_compose. apply list_fmap_id.
  - rewrite Hsum, Hsize. apply List_filter_length_le.
  - intros Hall. rewrite Hsum, Hsize. apply filter_all_length.
    intros c Hc. unfold rows in Hc.
    apply list_elem_of_In, list_elem_of_fmap in Hc as ([k c'] & -> & Hin).
    apply elem_of_map_to_list in Hin. change ((k, c').2) with c'.
    unfold in_list. apply existsb_exists. exists (contact_type c').
    split; [by apply (Hall k)|apply String.eqb_refl].
Qed.

(** ** Category paths *)

Lemma string_append_assoc (a b c : string) :
  ((a ++ b) ++ c)%string = (a ++ (b ++ c))%string.
Proof.
  induction a as [|x a IH]; [reflexivity|].
  change (String x ((a ++ b) ++ c) = String x (a ++ (b ++ c)))%string.
  f_equal. exact IH.
Qed.

Lemma join_snoc (sep : string) (names : list string) (x : string) :
  names <> [] ->
  join sep (names ++ [x]) = (join sep names ++ sep ++ x)%string.
Proof.
  induction names as [|n names IH]; [contradiction|]. intros _.
  destruct names as [|n' names'].
  - reflexivity.
  - change (join sep ((n :: n' :: names') ++ [x]))
      with (n ++ sep ++ join sep ((n' :: names') ++ [x]))%string.
    rewrite IH by discriminate.
    change (join sep (n :: n' :: names')) with (n ++ sep ++ join sep (n' :: names'))%string.
    rewrite !string_append_assoc. reflexivity.
Qed.

Lemma path_from_root_nonempty (t : gmap Z Category) (c : Category) (names : list string) :
  path_from_root t c names -> names <> [].
Proof.
  intros H. destruct H as [|? ? ? names']; [discriminate|].
  destruct names'; discriminate.
Qed.

(** X14. For a category whose parent links lead to a root, [full_path]
    is the names from the root down to the category joined by " > ",
    provided the interpreter allows as many frames as the path is long. *)
Theorem Category_full_path_joins
    (t : gmap Z Category) (c : Category) (names : list string) (depth : nat) :
  path_from_root t c names ->
  (length names <= depth)%nat ->
  Category_full_path depth t c = inr (join " > " names).
Proof.
  intros Hpath. revert depth.
  induction Hpath as [c Hroot|c parent k names Hpar Hk Hpath IH]; intros depth Hd.
  - destruct depth; [simpl in Hd; lia|]. simpl. by rewrite Hroot.
  - rewrite length_app in Hd. simpl in Hd.
    destruct depth as [|depth]; [lia|]. simpl. rewrite Hpar, Hk.
    rewrite (IH depth) by lia.
    rewrite join_snoc by (by eapply path_from_root_nonempty). reflexivity.
Qed.

Lemma Category_full_path_joins_witness :
  Category_full_path 5
    {[ 1 := mkCategory "Electronics" None; 2 := mkCategory "Phones" (Some 1) ]}
    (mkCategory "Chargers" (Some 2))
  = inr "Electronics > Phones > Chargers"%string.
Proof.
  apply (Category_full_path_joins _ _ ["Electronics"; "Phones"; "Chargers"]%string).
  - change ["Electronics"; "Phones"; "Chargers"]%string
      with (["Electronics"; "Phones"]%string
              ++ [Category_name (mkCategory "Chargers" (Some 2))]).
    apply (path_child _ _ (mkCategory "Phones" (Some 1)) 2); [reflexivity|reflexivity|].
    change ["Electronics"; "Phones"]%string
      with (["Electronics"]%string ++ [Category_name (mkCategory "Phones" (Some 1))]).
    apply (path_child _ _ (mkCategory "Electronics" None) 1); [reflexivity|reflexivity|].
    apply (path_root _ (mkCategory "Electronics" None)). reflexivity.
  - simpl. lia.
Defined.

(** X15. [full_path] has no guard against cycles: from a category inside a
    set that the parent links never leave, it fails with a recursion error
    whatever depth the interpreter allows. *)
Theorem Category_full_path_cycle
    (t : gmap Z Category) (inside : Category -> Prop) (c : Category) (depth : nat) :
  (forall x, inside x ->
     exists k parent, Category_parent x = Some k /\ t !! k = Some parent /\ inside parent) ->
  inside c ->
  Category_full_path depth t c = inl RecursionError.
Proof.
  intros Hclosed. revert c. induction depth as [|depth IH]; intros c Hc; [reflexivity|].
  destruct (Hclosed c Hc) as (k & parent & Hpar & Hk & Hin).
  simpl. rewrite Hpar, Hk, (IH parent Hin). reflexivity.
Qed.

Lemma Category_full_path_cycle_witness :
  Category_full_path 1000
    {[ 1 := mkCategory "Tools" (Some 2); 2 := mkCategory "Parts" (Some 1) ]}
    (mkCategory "Tools" (Some 2))
  = inl RecursionError.
Proof.
  apply (Category_full_path_cycle _
           (fun x => x = mkCategory "Tools" (Some 2) \/ x = mkCategory "Parts" (Some 1))).
  - intros x [-> | ->].
    + exists 2, (mkCategory "Parts" (Some 1)). repeat split; auto.
    + exists 1, (mkCategory "Tools" (Some 2)). repeat split; auto.
  - by left.
Defined.

(** ** The sign of the profit margin *)

Lemma sgn_sgn_pos (c p : Z) : 0 < p -> Z.sgn (Z.sgn c * p) = Z.sgn c.
Proof.
  intros Hp. rewrite Z.sgn_mul, (Z.sgn_pos p Hp), Z.mul_1_r.
  destruct c; reflexivity.
Qed.

(** Rounding to the precision keeps the sign of a coefficient. *)
Lemma fix_sgn (d : Decimal.t) :
  Z.sgn (Decimal.coef (Decimal.fix_ d)) = Z.sgn (Decimal.coef d).
Proof.
  unfold Decimal.fix_.
  destruct (Z.leb_spec (Decimal.ndigits (Decimal.coef d)) Decimal.prec) as [|Hn];
    [reflexivity|].
  destruct (Z.eq_dec (Decimal.coef d) 0) as [Hz|Hz].
  { rewrite Hz. destruct (_ =? _); reflexivity. }
  pose proof (ndigits_spec _ Hz) as [Hlo _].
  set (n := Decimal.ndigits (Decimal.coef d)) in *.
  unfold Decimal.prec in *.
  set (k := n - 28).
  assert (Hk : 10 ^ k <= 10 ^ (n - 1)) by (apply Z.pow_le_mono_r; lia).
  pose proof (pow10_pos k ltac:(lia)) as Hk0.
  assert (Hq : 1 <= Z.abs (Decimal.coef d) / 10 ^ k).
  { apply Z.div_le_lower_bound; lia. }
  set (q := Z.abs (Decimal.coef d) / 10 ^ k) in *.
  set (c := if _ : bool then q + 1 else q).
  assert (Hc : 1 <= c) by (unfold c; destruct (_ || _); lia).
  destruct (Z.eqb_spec c (10 ^ 28)) as [Hc'|_]; cbn [Decimal.coef].
  - apply sgn_sgn_pos. rewrite Hc'. reflexivity.
  - apply sgn_sgn_pos. lia.
Qed.

(** The sign of a sum is the sign of the exact sum at the smaller
    exponent. *)
Lemma add_sgn (a b : Decimal.t) :
  Z.sgn (Decimal.coef (Decimal.add a b))
  = Z.sgn (Decimal.coef a * 10 ^ (Decimal.exp a - Z.min (Decimal.exp a) (Decimal.exp b))
           + Decimal.coef b * 10 ^ (Decimal.exp b - Z.min (Decimal.exp a) (Decimal.exp b))).
Proof.
  unfold Decimal.add, Decimal.is_zero.
  set (e := Z.min (Decimal.exp a) (Decimal.exp b)).
  assert (He : e <= Decimal.exp a /\ e <= Decimal.exp b) by (unfold e; lia).
  destruct (Z.eqb_spec (Decimal.coef a) 0) as [Ha|Ha];
    destruct (Z.eqb_spec (Decimal.coef b) 0) as [Hb|Hb];
    cbn [andb]; rewrite fix_sgn; cbn [Decimal.coef Decimal.rescale];
    unfold Decimal.prec.
  - rewrite Ha, Hb. reflexivity.
  - rewrite Ha, Z.mul_0_l, Z.add_0_l, !Z.sgn_mul.
    rewrite !(Z.sgn_pos (10 ^ _)) by (apply pow10_pos; lia). reflexivity.
  - rewrite Hb, Z.mul_0_l, Z.add_0_r, !Z.sgn_mul.
    rewrite !(Z.sgn_pos (10 ^ _)) by (apply pow10_pos; lia). reflexivity.
  - reflexivity.
Qed.

(** A quotient has the product of the signs of its operands. *)
Lemma div_sgn (a b q : Decimal.t) :
  Decimal.div a b = Some q ->
  Z.sgn (Decimal.coef q) = Z.sgn (Decimal.coef a) * Z.sgn (Decimal.coef b).
Proof.
  unfold Decimal.div, Decimal.is_zero.
  destruct (Z.eqb_spec (Decimal.coef b) 0) as [|Hb]; [discriminate|].
  destruct (Z.eqb_spec (Decimal.coef a) 0) as [Ha|Ha].
  { intros [= <-]. rewrite fix_sgn, Ha. reflexivity. }
  pose proof (ndigits_spec _ Ha) as [Hla _].
  pose proof (ndigits_spec _ Hb) as [_ Hlb].
  pose proof (ndigits_pos_fuel (Z.to_nat (Z.log2 (Z.abs (Decimal.coef a))))
                (Z.abs (Decimal.coef a))) as Hla1.
  pose proof (ndigits_pos_fuel (Z.to_nat (Z.log2 (Z.abs (Decimal.coef b))))
                (Z.abs (Decimal.coef b))) as Hlb1.
  fold (Decimal.ndigits (Decimal.coef a)) in Hla1.
  fold (Decimal.ndigits (Decimal.coef b)) in Hlb1.
  set (la := Decimal.ndigits (Decimal.coef a)) in *.
  set (lb := Decimal.ndigits (Decimal.coef b)) in *.
  set (n := Z.abs (Decimal.coef a)) in *.
  set (m := Z.abs (Decimal.coef b)) in *.
  unfold Decimal.prec.
  set (shift := lb - la + 28 + 1).
  assert (Hm : 0 < m) by (unfold m; lia).
  assert (Hquot : 1 <= (if 0 <=? shift then Z.div_eucl (n * 10 ^ shift) m
                        else Z.div_eucl n (m * 10 ^ (- shift))).1).
  { destruct (Z.leb_spec 0 shift) as [Hs|Hs]; rewrite div_eucl_div_mod; cbn [fst].
    - apply Z.div_le_lower_bound; [lia|].
      assert (10 ^ lb <= 10 ^ (la - 1) * 10 ^ shift).
      { rewrite <- Z.pow_add_r by lia. apply Z.pow_le_mono_r; lia. }
      pose proof (pow10_pos shift Hs). nia.
    - pose proof (pow10_pos (- shift) ltac:(lia)) as Hp.
      apply Z.div_le_lower_bound; [nia|].
      assert (10 ^ lb * 10 ^ (- shift) <= 10 ^ (la - 1)).
      { rewrite <- Z.pow_add_r by lia. apply Z.pow_le_mono_r; lia. }
      nia. }
  destruct (if 0 <=? shift then _ else _) as [q0 r]. cbn [fst] in Hquot.
  assert (Hq' : 0 < (if r =? 0
                     then Decimal.strip
                            (Z.to_nat (Decimal.exp a - Decimal.exp b
                                       - (Decimal.exp a - Decimal.exp b - shift)))
                            q0 (Decimal.exp a - Decimal.exp b - shift)
                     else (if q0 mod 5 =? 0 then q0 + 1 else q0,
                           Decimal.exp a - Decimal.exp b - shift)).1).
  { destruct (r =? 0).
    - pose proof (strip_spec
                    (Z.to_nat (Decimal.exp a - Decimal.exp b
                               - (Decimal.exp a - Decimal.exp b - shift)))
                    q0 (Decimal.exp a - Decimal.exp b - shift) ltac:(lia))
        as (Hb0 & _ & Hv).
      set (c' := (Decimal.strip _ q0 _).1) in *.
      destruct (Z.eq_dec c' 0) as [Hz|]; [|lia].
      rewrite Hz in Hv. lia.
    - cbn [fst]. destruct (_ =? _); lia. }
  destruct (if r =? 0 then _ else _) as [q' e']. cbn [fst] in Hq'.
  intros [= <-]. rewrite fix_sgn. cbn [Decimal.coef].
  rewrite Z.sgn_mul, (Z.sgn_pos q' Hq'), Z.mul_1_r, Z.sgn_mul.
  destruct (Decimal.coef a), (Decimal.coef b); reflexivity.
Qed.

Lemma mul_sgn (a b : Decimal.t) :
  Z.sgn (Decimal.coef (Decimal.mul a b))
  = Z.sgn (Decimal.coef a) * Z.sgn (Decimal.coef b).
Proof. unfold Decimal.mul. rewrite fix_sgn. apply Z.sgn_mul. Qed.

Local Open Scope Q_scope.

(** The sign of a decimal is the sign of its coefficient. *)
Lemma value_sgn (d : Decimal.t) :
  (0 < Decimal.value d <-> (0 < Decimal.coef d)%Z)
  /\ (Decimal.value d == 0 <-> Decimal.coef d = 0%Z)
  /\ (Decimal.value d < 0 <-> (Decimal.coef d < 0)%Z).
Proof.
  unfold Decimal.value. pose proof (Qpow10_pos (Decimal.exp d)) as Hp.
  set (p := (10 # 1) ^ Decimal.exp d) in *.
  set (c := Decimal.coef d).
  assert (H0 : inject_Z 0 = 0) by reflexivity.
  destruct (Z.lt_trichotomy c 0) as [Hc|[Hc|Hc]].
  - assert (inject_Z c < 0) by (rewrite <- H0, <- Zlt_Qlt; exact Hc).
    assert (inject_Z c * p < 0) by nra.
    repeat split; intros; try lia; try lra.
  - rewrite Hc. assert (inject_Z 0 * p == 0) by ring.
    repeat split; intros; try lia; try lra.
  - assert (0 < inject_Z c) by (rewrite <- H0, <- Zlt_Qlt; exact Hc).
    assert (0 < inject_Z c * p) by nra.
    repeat split; intros; try lia; try lra.
Qed.

Lemma value_sub_aligned (a b : Decimal.t) :
  Decimal.value
    (Decimal.mk
       (Decimal.coef a * 10 ^ (Decimal.exp a - Z.min (Decimal.exp a) (Decimal.exp b))
        + Decimal.coef (Decimal.neg b)
          * 10 ^ (Decimal.exp (Decimal.neg b)
                  - Z.min (Decimal.exp a) (Decimal.exp (Decimal.neg b))))
       (Z.min (Decimal.exp a) (Decimal.exp b)))
  == Decimal.value a - Decimal.value b.
Proof.
  change (Decimal.exp (Decimal.neg b)) with (Decimal.exp b).
  rewrite (value_aligned_sum a (Decimal.neg b)) by (cbn [Decimal.exp Decimal.neg]; lia).
  rewrite value_neg. ring.
Qed.

(** X17. For a product with a positive cost price, [Product.profit_margin]
    is a decimal whose sign tells how the selling price compares with the
    cost: positive exactly when the product sells above cost, zero exactly
    at cost, negative exactly below cost; rounding to the context's
    precision never changes that. *)
Theorem Product_profit_margin_sign (self : Product) :
  Decimal.gt0 (cost_price self) = true ->
  exists m,
    Product_profit_margin self = Ok (NDecimal m)
    /\ (0 < Decimal.value m
        <-> Decimal.value (cost_price self) < Decimal.value (selling_price self))
    /\ (Decimal.value m == 0
        <-> Decimal.value (selling_price self) == Decimal.value (cost_price self))
    /\ (Decimal.value m < 0
        <-> Decimal.value (selling_price self) < Decimal.value (cost_price self)).
Proof.
  intros Hgt. unfold Product_profit_margin, truediv. rewrite Hgt.
  assert (Hc : (0 < Decimal.coef (cost_price self))%Z)
    by (unfold Decimal.gt0 in Hgt; lia).
  assert (Hz : Decimal.is_zero (cost_price self) = false)
    by (unfold Decimal.is_zero; lia).
  destruct (div_some (Decimal.sub (selling_price self) (cost_price self))
              (cost_price self) Hz) as [q Hq].
  rewrite Hq. eexists. split; [reflexivity|].
  pose proof (div_sgn _ _ _ Hq) as Hs.
  unfold Decimal.sub in Hs. rewrite add_sgn in Hs.
  rewrite (Z.sgn_pos _ Hc), Z.mul_1_r in Hs.
  pose proof (value_sub_aligned (selling_price self) (cost_price self)) as Hv.
  set (dd := Decimal.mk _ _) in Hv.
  change (Z.sgn (Decimal.coef q) = Z.sgn (Decimal.coef dd)) in Hs.
  pose proof (mul_sgn q (Decimal.of_int 100)) as Hm.
  change (Z.sgn (Decimal.coef (Decimal.of_int 100))) with 1%Z in Hm.
  rewrite Z.mul_1_r, Hs in Hm.
  destruct (value_sgn (Decimal.mul q (Decimal.of_int 100))) as (Hp & Hz0 & Hn).
  destruct (value_sgn dd) as (Hp' & Hz0' & Hn').
  rewrite Hp, Hz0, Hn. rewrite Hv in Hp', Hz0', Hn'.
  split; [|split].
  - transitivity (0 < Decimal.coef dd)%Z; [lia|]. rewrite <- Hp'. split; intros; lra.
  - transitivity (Decimal.coef dd = 0%Z); [lia|]. rewrite <- Hz0'. split; intros; lra.
  - transitivity (Decimal.coef dd < 0)%Z; [lia|]. rewrite <- Hn'. split; intros; lra.
Qed.

Lemma Product_profit_margin_sign_witness :
  exists m,
    Product_profit_margin sample_product = Ok (NDecimal m)
    /\ 0 < Decimal.value m.
Proof.
  destruct (Product_profit_margin_sign sample_product) as (m & Hm & Hp & _);
    [reflexivity|].
  exists m. split; [exact Hm|]. apply Hp. vm_compute. reflexivity.
Defined.

Local Close Scope Q_scope.

(** ** Line totals within their bounds *)

Local Open Scope Q_scope.

Lemma InvoiceItem_save_value (self self' : InvoiceItem) (w w' : World) :
  Decimal.fits 10 2 (unit_price self) ->
  Decimal.fits 10 2 (quantity self) ->
  Decimal.fits 5 2 (discount_percentage self) ->
  InvoiceItem_save self w = (Ok self', w') ->
  Decimal.value (line_total self')
  == Decimal.value (unit_price self) * Decimal.value (quantity self)
     - Decimal.value (unit_price self) * Decimal.value (quantity self)
       * Decimal.value (discount_percentage self) / 100
  /\ exists k row,
       InvoiceItem_pk self' = Some k
       /\ invoice_items w' !! k = Some row
       /\ Decimal.quantize 12 (-2) (line_total self') = Some (line_total row).
Proof.
  intros Hu Hq Hd Hsave.
  destruct (line_total_exact _ _ _ Hu Hq Hd) as (disc & Hdisc & Hval).
  rewrite (InvoiceItem_save_run self w disc Hdisc) in Hsave.
  apply InvoiceItem_base_save_ok in Hsave
    as (k & q & u & d & l & _ & _ & _ & Hl & -> & -> & _).
  split; [exact Hval|].
  exists k, (mkInvoiceItem (Some k) (InvoiceItem_invoice self) q u d l).
  split; [reflexivity|]. split; [apply lookup_insert_eq|exact Hl].
Qed.

(** Rounding to the column's places does not make a value negative. *)
Lemma quantize_nonneg (p e : Z) (d s : Decimal.t) :
  (1 <= p)%Z ->
  Decimal.quantize p e d = Some s ->
  0 <= Decimal.value d -> 0 <= Decimal.value s.
Proof.
  intros Hp Hq Hd.
  destruct (quantize_some p e d s Hp Hq) as (_ & _ & c & Hc0 & Hcs & _).
  destruct (value_sgn d) as (_ & _ & Hneg).
  destruct (value_sgn s) as (_ & _ & Hneg').
  destruct (Qlt_le_dec (Decimal.value s) 0) as [Hlt|Hle]; [|exact Hle].
  apply Hneg' in Hlt.
  assert (Hcd : (Decimal.coef d < 0)%Z).
  { destruct (Z.sgn_spec (Decimal.coef d)) as [[_ Hs]|[[_ Hs]|[? _]]];
      [rewrite Hs in Hcs; lia|rewrite Hs in Hcs; lia|assumption]. }
  apply Hneg in Hcd. lra.
Qed.

(** X16. With operands within their fields, a price and a quantity that
    are not negative and a discount between 0 and 100 percent (what the
    field validators admit), the line total [InvoiceItem.save] leaves on
    the instance lies between 0 and price times quantity: it is the full
    product at 0 percent and 0 at 100 percent.  The row written holds that
    line total rounded to the column's two places: not negative, and at
    most half a cent above price times quantity. *)
Theorem InvoiceItem_line_total_bounds (self self' : InvoiceItem) (w w' : World) :
  Decimal.fits 10 2 (unit_price self) ->
  Decimal.fits 10 2 (quantity self) ->
  Decimal.fits 5 2 (discount_percentage self) ->
  0 <= Decimal.value (unit_price self) ->
  0 <= Decimal.value (quantity self) ->
  0 <= Decimal.value (discount_percentage self) <= 100 ->
  InvoiceItem_save self w = (Ok self', w') ->
  (0 <= Decimal.value (line_total self')
   /\ Decimal.value (line_total self')
      <= Decimal.value (unit_price self) * Decimal.value (quantity self))
  /\ (Decimal.value (discount_percentage self) == 0 ->
      Decimal.value (line_total self')
      == Decimal.value (unit_price self) * Decimal.value (quantity self))
  /\ (Decimal.value (discount_percentage self) == 100 ->
      Decimal.value (line_total self') == 0)
  /\ exists k row,
       InvoiceItem_pk self' = Some k
       /\ invoice_items w' !! k = Some row
       /\ Decimal.exp (line_total row) = (-2)%Z
       /\ 0 <= Decimal.value (line_total row)
       /\ Decimal.value (line_total row)
          <= Decimal.value (unit_price self) * Decimal.value (quantity self)
             + (1 # 200).
Proof.
  intros Hu Hq Hd Hu0 Hq0 [Hd0 Hd1] Hsave.
  destruct (InvoiceItem_save_value self self' w w' Hu Hq Hd Hsave)
    as (Hv & k & row & Hk & Hrow & Hquant).
  set (u := Decimal.value (unit_price self)) in *.
  set (q := Decimal.value (quantity self)) in *.
  set (d := Decimal.value (discount_percentage self)) in *.
  assert (Huq : 0 <= u * q) by (apply Qmult_le_0_compat; assumption).
  assert (Hform : Decimal.value (line_total self') == u * q * ((100 - d) / 100))
    by (rewrite Hv; field).
  assert (Ht0 : 0 <= (100 - d) / 100)
    by (apply Qle_shift_div_l; [reflexivity|]; lra).
  assert (Ht1 : (100 - d) / 100 <= 1)
    by (apply Qle_shift_div_r; [reflexivity|]; lra).
  set (t := (100 - d) / 100) in *.
  assert (Hlo : 0 <= Decimal.value (line_total self'))
    by (rewrite Hform; apply Qmult_le_0_compat; assumption).
  assert (Hhi : Decimal.value (line_total self') <= u * q)
    by (rewrite Hform; nra).
  split; [split; assumption|]. split; [|split].
  - intros Hz. rewrite Hv, Hz. field.
  - intros Hz. rewrite Hv, Hz. field.
  - exists k, row. split; [exact Hk|]. split; [exact Hrow|].
    destruct (quantize_cents 12 _ _ ltac:(lia) Hquant) as (He & _ & _ & Hc).
    split; [exact He|]. split.
    + exact (quantize_nonneg 12 (-2) _ _ ltac:(lia) Hquant Hlo).
    + lra.
Qed.

Lemma InvoiceItem_line_total_bounds_witness :
  exists self' w' k row,
    InvoiceItem_save sample_item sample_world = (Ok self', w')
    /\ 0 <= Decimal.value (line_total self')
    /\ Decimal.value (line_total self')
       <= Decimal.value (unit_price sample_item)
          * Decimal.value (quantity sample_item)
    /\ InvoiceItem_pk self' = Some k
    /\ invoice_items w' !! k = Some row
    /\ 0 <= Decimal.value (line_total row).
Proof.
  destruct (InvoiceItem_save sample_item sample_world) as [[self'|e] w'] eqn:E.
  2: { vm_compute in E. discriminate E. }
  destruct (InvoiceItem_line_total_bounds sample_item self' sample_world w')
    as ((Hlo & Hhi) & _ & _ & k & row & Hk & Hrow & _ & Hr0 & _).
  - unfold Decimal.fits; cbn; lia.
  - unfold Decimal.fits; cbn; lia.
  - unfold Decimal.fits; cbn; lia.
  - vm_compute. discriminate.
  - vm_compute. discriminate.
  - split; vm_compute; discriminate.
  - exact E.
  - exists self', w', k, row. auto 10.
Defined.

Local Close Scope Q_scope.

(** ** Previews in the admin lists *)

Lemma substring_0_length (n : nat) (s : string) :
  String.length (substring 0 n s) = Nat.min n (String.length s).
Proof.
  revert s. induction n as [|n IH]; intros [|c s]; cbn; try reflexivity.
  by rewrite IH.
Qed.

Lemma substring_0_all (n : nat) (s : string) :
  (String.length s <= n)%nat -> substring 0 n s = s.
Proof.
  revert s. induction n as [|n IH]; intros [|c s] Hl; cbn in *; try reflexivity;
    try lia.
  f_equal. apply IH. lia.
Qed.

Lemma substring_0_append (n : nat) (s t : string) :
  (n <= String.length s)%nat ->
  substring 0 n (substring 0 n s ++ t) = substring 0 n s.
Proof.
  revert s. induction n as [|n IH]; intros s Hl.
  - replace (substring 0 0 s) with EmptyString by (destruct s; reflexivity).
    destruct (EmptyString ++ t)%string; reflexivity.
  - destruct s as [|c s]; cbn [String.length] in Hl; [lia|].
    cbn [substring].
    change (String c (substring 0 n s) ++ t)%string
      with (String c (substring 0 n s ++ t)%string).
    cbn [substring]. f_equal. apply IH. lia.
Qed.

(** X18. The previews the admin lists show of a configuration value and of
    a service note are never longer than 53 characters: a text of at most
    50 characters is shown as it is, a longer one as its first 50
    characters followed by three dots, so that the first 50 characters of
    the preview are always those of the text. *)
Theorem value_preview_length (s : string) :
  (String.length (value_preview s) <= 53)%nat
  /\ ((String.length s <= 50)%nat -> value_preview s = s)
  /\ ((50 < String.length s)%nat -> String.length (value_preview s) = 53%nat)
  /\ substring 0 50 (value_preview s) = substring 0 50 s
  /\ note_preview s = value_preview s.
Proof.
  unfold note_preview, value_preview.
  destruct (Nat.ltb_spec 50 (String.length s)) as [Hl|Hl].
  - rewrite string_length_append, substring_0_length.
    change (String.length "...") with 3%nat.
    repeat split; try lia.
    apply substring_0_append. lia.
  - repeat split; try lia.
Qed.
